(** * Notion file-URL rewriters and proxy handlers

    A shallow embedding of

    - [src/lib/rewrite-notion-pdf-urls.ts], the legacy rewriter
      (module [RewritePdf]),
    - [lib/notion-api], the general rewriter [rewriteNotionFileUrls]
      (module [NotionApi]),
    - [pages/api/notion-file], the redirect handler [notionFileHandler]
      (module [NotionFile]),
    - [pages/api/assets-pdf], the streaming proxy [assetsPdfHandler]
      (module [AssetsPdf]),

    followed by the properties of the specification, stated on these
    definitions.

    What the code takes from its platform is a parameter of the embedding:
    the URL parser ([UrlApi]), the Notion client ([Http.NotionClient]) and
    [node-fetch] ([Http.FetchApi]).  The rewriters run on a store of objects
    with identity, so that "does not mutate its input" is a statement about
    the store; the handlers run in a small monad of computations that change
    the response, call upstream, and may throw. *)

From Stdlib Require Import ZArith Ascii String.
From stdpp Require Import base option strings list gmap fin_maps pretty.

Local Open Scope string_scope.

(** ** JavaScript strings

    A JavaScript string is modelled by the sequence of its UTF-8 bytes
    (Rocq's [string]).  On ASCII text, which is all the source compares
    against, bytes and UTF-16 code units coincide. *)

Module JsString.

(** [s.endsWith(searchString)], following ECMA-262: the candidate start is
    [len - searchLength]; a negative start answers [false]; otherwise the
    code units from there on are compared with [searchString]. *)
Definition endsWith (s searchString : string) : bool :=
  let len := String.length s in
  let searchLength := String.length searchString in
  if (len <? searchLength)%nat then false
  else String.eqb (substring (len - searchLength) searchLength s) searchString.

Definition isAsciiAlpha (c : ascii) : bool :=
  let n := N_of_ascii c in
  ((65 <=? n) && (n <=? 90) || (97 <=? n) && (n <=? 122))%N.

Definition isAsciiDigit (c : ascii) : bool :=
  let n := N_of_ascii c in ((48 <=? n) && (n <=? 57))%N.

(** The characters [encodeURIComponent] leaves alone:
    [A-Z a-z 0-9 - _ . ! ~ * ' ( )]. *)
Definition uriUnreserved (c : ascii) : bool :=
  isAsciiAlpha c || isAsciiDigit c ||
  existsb (Ascii.eqb c)
    ["-"; "_"; "."; "!"; "~"; "*"; "'"; "("; ")"]%char.

Definition hexDigit (n : N) : ascii :=
  if (n <? 10)%N then ascii_of_N (48 + n) else ascii_of_N (55 + n).

(** [%XX], upper-case hexadecimal, for one byte. *)
Definition percentEncode (c : ascii) : string :=
  let n := N_of_ascii c in
  String "%" (String (hexDigit (n / 16)) (String (hexDigit (n mod 16)) EmptyString)).

(** [encodeURIComponent(s)]: every byte of the UTF-8 encoding that is not
    unreserved becomes [%XX].  (The URIError that JavaScript raises on a
    lone surrogate has no counterpart: a byte string holds none.) *)
Fixpoint encodeURIComponent (s : string) : string :=
  match s with
  | EmptyString => EmptyString
  | String c rest =>
      (if uriUnreserved c then String c EmptyString else percentEncode c)
        +:+ encodeURIComponent rest
  end.

End JsString.

(** ** The platform's URL parser

    [new URL(url).hostname] belongs to the platform, not to the repository:
    the code is embedded over any parser.  [URL_hostname url = None] stands
    for the [TypeError] the constructor throws. *)

Class UrlApi := URL_hostname : string → option string.

(** A concrete parser for a fragment of the WHATWG URL syntax, used to run
    the code on examples: [http://] or [https://], then a host made of
    lower-case letters, digits, [-] and [.], ended by [/], [?], [#] or the
    end of the string.  On that fragment the host is returned as it stands,
    as the platform does; hosts it would rewrite (a numeric last label, a
    punycode label) and everything else are answered [None], which is also
    what the platform answers for a string that has no scheme. *)
Module Whatwg.

Definition isLowerAlpha (c : ascii) : bool :=
  let n := N_of_ascii c in ((97 <=? n) && (n <=? 122))%N.

Definition isHostChar (c : ascii) : bool :=
  isLowerAlpha c || JsString.isAsciiDigit c ||
  Ascii.eqb c "-" || Ascii.eqb c ".".

Definition endsAuthority (c : ascii) : bool :=
  Ascii.eqb c "/" || Ascii.eqb c "?" || Ascii.eqb c "#".

Fixpoint authority (s : string) : string :=
  match s with
  | EmptyString => EmptyString
  | String c rest =>
      if endsAuthority c then EmptyString else String c (authority rest)
  end.

Fixpoint allChars (p : ascii → bool) (s : string) : bool :=
  match s with
  | EmptyString => true
  | String c rest => p c && allChars p rest
  end.

(** The labels of a host, [cur] being the label read so far. *)
Fixpoint labelsFrom (cur : string) (s : string) : list string :=
  match s with
  | EmptyString => [cur]
  | String c rest =>
      if Ascii.eqb c "." then cur :: labelsFrom EmptyString rest
      else labelsFrom (cur +:+ String c EmptyString) rest
  end.

Definition startsWithDigit (l : string) : bool :=
  match l with
  | String c _ => JsString.isAsciiDigit c
  | EmptyString => false
  end.

Definition lastNonEmptyLabel (ls : list string) : string :=
  match filter (λ l, l ≠ EmptyString) ls with
  | [] => EmptyString
  | l :: ls' => List.last ls' l
  end.

Definition plainLabels (host : string) : bool :=
  let ls := labelsFrom EmptyString host in
  forallb (λ l, negb (String.prefix "xn--" l)) ls &&
  negb (startsWithDigit (lastNonEmptyLabel ls)).

Definition afterScheme (s : string) : option string :=
  if String.prefix "https://" s
  then Some (substring 8 (String.length s - 8) s)
  else if String.prefix "http://" s
  then Some (substring 7 (String.length s - 7) s)
  else None.

Definition hostname (s : string) : option string :=
  rest ← afterScheme s;
  let host := authority rest in
  if negb (String.eqb host EmptyString) && allChars isHostChar host && plainLabels host
  then Some host
  else None.

Definition api : UrlApi := hostname.

End Whatwg.

(** ** JavaScript values and the object store

    A record map is plain data: primitives and objects holding own
    properties.  Objects live in a store and values refer to them by
    location, so that what a function writes, and where, is visible.
    Numbers are the integer-valued ones; arrays are objects whose keys are
    the decimal indices; the prototype chain is not modelled. *)

Abbreviation loc := positive (only parsing).

Inductive val : Type :=
  | VUndefined
  | VNull
  | VBool (b : bool)
  | VNumber (n : Z)
  | VString (s : string)
  | VObject (l : loc).

#[global] Instance val_eq_dec : EqDecision val.
Proof. solve_decision. Defined.

Abbreviation object := (gmap string val) (only parsing).
Abbreviation heap := (gmap positive (gmap string val)) (only parsing).

Module Js.

(** ToBoolean. *)
Definition truthy (v : val) : bool :=
  match v with
  | VUndefined | VNull => false
  | VBool b => b
  | VNumber n => negb (n =? 0)%Z
  | VString s => negb (String.eqb s EmptyString)
  | VObject _ => true
  end.

(** [a === b]: primitives by value, objects by identity. *)
Definition strictEquals (a b : val) : bool := bool_decide (a = b).


Definition isObject (v : val) : bool :=
  match v with VObject _ => true | _ => false end.

(** ToString on the values of the model; an object is a plain object. *)
Definition ToString (v : val) : string :=
  match v with
  | VUndefined => "undefined"
  | VNull => "null"
  | VBool true => "true"
  | VBool false => "false"
  | VNumber n => pretty n
  | VString s => s
  | VObject _ => "[object Object]"
  end.

(** The own properties of the object a value refers to. *)
Definition props (h : heap) (v : val) : object :=
  match v with
  | VObject l => default ∅ (h !! l)
  | _ => ∅
  end.

(** [v?.[k]]: [undefined] on [null] and [undefined], on a missing
    property, and on a primitive (which has no own data property among
    the keys the source reads). *)
Definition get (h : heap) (v : val) (k : string) : val :=
  default VUndefined (props h v !! k).

(** [Object.entries(v)], the own properties as key/value pairs. *)
Definition entries (h : heap) (v : val) : list (string * val) :=
  map_to_list (props h v).

(** A new object: the store grows by one location, not in use before. *)
Definition alloc (h : heap) (o : object) : heap * loc :=
  let l := fresh (dom h) in (<[l := o]> h, l).

(** [o[k] = v] for the object at [l]. *)
Definition setProp (h : heap) (l : loc) (k : string) (v : val) : heap :=
  alter (insert k v) l h.

End Js.

(** ** src/lib/rewrite-notion-pdf-urls.ts *)

Module RewritePdf.
Section WithUrl.
Context `{UrlApi}.

Definition isNotionHostedUrl (url : string) : bool :=
  if String.eqb url EmptyString then false
  else
    match URL_hostname url with
    | Some hostname =>
        JsString.endsWith hostname "amazonaws.com" ||
        String.eqb hostname "notion.so" ||
        JsString.endsWith hostname ".notion.so"
    | None => false
    end.

(** The body of the [for] loop, for one entry of [signed_urls]. *)
Definition rewriteEntry (recordMap : val) (pageId : string)
    (rewritten : loc) (h : heap) (entry : string * val) : heap :=
  let '(blockId, signedUrl) := entry in
  match signedUrl with
  | VString url =>
      let block :=
        Js.get h (Js.get h (Js.get h recordMap "block") blockId) "value" in
      let blockType := Js.get h block "type" in
      if Js.strictEquals blockType (VString "pdf") && isNotionHostedUrl url
      then
        Js.setProp h rewritten blockId
          (VString ("/assets-pdf/" +:+ JsString.encodeURIComponent pageId
                      +:+ "/" +:+ JsString.encodeURIComponent blockId))
      else Js.setProp h rewritten blockId signedUrl
  | _ => h
  end.

Definition rewriteNotionPdfUrls (h : heap) (recordMap : val)
    (pageId : string) : heap * val :=
  if negb (Js.truthy (Js.get h recordMap "signed_urls"))
  then (h, recordMap)
  else
    let '(h, rewritten) := Js.alloc h ∅ in
    let h :=
      foldl (rewriteEntry recordMap pageId rewritten) h
        (Js.entries h (Js.get h recordMap "signed_urls")) in
    let '(h, result) :=
      Js.alloc h
        (<["signed_urls" := VObject rewritten]> (Js.props h recordMap)) in
    (h, VObject result).
End WithUrl.
End RewritePdf.

(** ** The general rewriter (lib/notion-api) *)

Module NotionApi.

Definition FILE_BLOCK_TYPES : gset string :=
  {[ "pdf"; "file"; "audio"; "video" ]}.

(** [FILE_BLOCK_TYPES.has(v)]: the set holds strings only. *)
Definition FILE_BLOCK_TYPES_has (v : val) : bool :=
  match v with
  | VString s => bool_decide (s ∈ FILE_BLOCK_TYPES)
  | _ => false
  end.

Section WithUrl.
Context `{UrlApi}.

Definition isNotionHostedUrl (url : string) : bool :=
  if String.eqb url EmptyString then false
  else
    match URL_hostname url with
    | Some hostname =>
        JsString.endsWith hostname "amazonaws.com" ||
        String.eqb hostname "notion.so" ||
        JsString.endsWith hostname ".notion.so"
    | None => false
    end.

Definition rewriteEntry (recordMap : val) (pageId : string)
    (rewritten : loc) (h : heap) (entry : string * val) : heap :=
  let '(blockId, signedUrl) := entry in
  match signedUrl with
  | VString url =>
      let block :=
        Js.get h (Js.get h (Js.get h recordMap "block") blockId) "value" in
      let blockType := Js.get h block "type" in
      if Js.truthy blockType && FILE_BLOCK_TYPES_has blockType
         && isNotionHostedUrl url
      then
        Js.setProp h rewritten blockId
          (VString ("/api/notion-file?blockId="
                      +:+ JsString.encodeURIComponent blockId
                      +:+ "&pageId=" +:+ JsString.encodeURIComponent pageId))
      else Js.setProp h rewritten blockId signedUrl
  | _ => h
  end.

Definition rewriteNotionFileUrls (h : heap) (recordMap : val)
    (pageId : string) : heap * val :=
  if negb (Js.truthy (Js.get h recordMap "signed_urls"))
  then (h, recordMap)
  else
    let '(h, rewritten) := Js.alloc h ∅ in
    let h :=
      foldl (rewriteEntry recordMap pageId rewritten) h
        (Js.entries h (Js.get h recordMap "signed_urls")) in
    let '(h, result) :=
      Js.alloc h
        (<["signed_urls" := VObject rewritten]> (Js.props h recordMap)) in
    (h, VObject result).
End WithUrl.
End NotionApi.

(** ** HTTP requests, responses and the upstream services *)

Module Http.

(** A query parameter or request header as the framework hands it over:
    one string, or an array of strings when it was repeated; an absent one
    is [undefined] ([None] in the maps below). *)
Inductive param : Type :=
  | PString (s : string)
  | PArray (ss : list string).

Record request : Type := Request {
  method : option string;
  query : gmap string param;
  headers : gmap string param
}.

(** [!p || typeof p !== 'string'] is false exactly on a non-empty string. *)
Definition requiredString (p : option param) : option string :=
  match p with
  | Some (PString s) => if String.eqb s EmptyString then None else Some s
  | _ => None
  end.

(** [typeof p === 'string']. *)
Definition stringParam (p : option param) : option string :=
  match p with
  | Some (PString s) => Some s
  | _ => None
  end.

Record GetPageOptions : Type := {
  fetchMissingBlocks : bool;
  fetchCollections : bool;
  signFileUrls : bool
}.

(** What the upstream answers to [fetch]. *)
Record fetchResponse : Type := {
  status : Z;
  responseHeaders : gmap string string;
  body : option string
}.

(** Calls that leave the process, in the order they are made. *)
Inductive call : Type :=
  | GetPage (pageId : string) (opts : GetPageOptions)
  | Fetch (url : string) (meth : option string) (hdrs : gmap string string).

(** What completes a response. *)
Inductive payload : Type :=
  | Json (error : string)
  | Redirected (url : string)
  | Ended
  | Piped (bytes : string).

Inductive logEntry : Type :=
  | Warn (msg : string)
  | Error (msg : string).

(** The response under construction ([sent] lists what completed it, in
    order), the calls made and the console. *)
Record world : Type := World {
  statusCode : Z;
  resHeaders : gmap string string;
  sent : list payload;
  calls : list call;
  console : list logEntry
}.

Definition initial : world :=
  {| statusCode := 200; resHeaders := ∅; sent := [];
     calls := []; console := [] |}.

(** Computations that change the world and may throw. *)
Inductive outcome (A : Type) : Type :=
  | Returned (a : A)
  | Thrown (e : string).
Arguments Returned {A} a.
Arguments Thrown {A} e.

Definition io (A : Type) : Type := world → outcome A * world.

Definition ret {A} (a : A) : io A := λ w, (Returned a, w).

Definition bind {A B} (m : io A) (k : A → io B) : io B :=
  λ w,
    match m w with
    | (Returned a, w') => k a w'
    | (Thrown e, w') => (Thrown e, w')
    end.

Definition throw {A} (e : string) : io A := λ w, (Thrown e, w).

Definition tryCatch {A} (m : io A) (handler : string → io A) : io A :=
  λ w,
    match m w with
    | (Returned a, w') => (Returned a, w')
    | (Thrown e, w') => handler e w'
    end.

#[global] Instance io_ret : MRet io := @ret.
#[global] Instance io_bind : MBind io := λ A B k m, bind m k.

Definition modify (f : world → world) : io unit := λ w, (Returned (), f w).

(** The changes the handlers make to the world. *)
Definition withStatus (code : Z) (w : world) : world :=
  {| statusCode := code; resHeaders := resHeaders w; sent := sent w;
     calls := calls w; console := console w |}.

Definition withHeader (name value : string) (w : world) : world :=
  {| statusCode := statusCode w;
     resHeaders := <[name := value]> (resHeaders w);
     sent := sent w; calls := calls w; console := console w |}.

Definition finished (p : payload) (w : world) : world :=
  {| statusCode := statusCode w; resHeaders := resHeaders w;
     sent := sent w ++ [p]; calls := calls w; console := console w |}.

Definition addCall (c : call) (w : world) : world :=
  {| statusCode := statusCode w; resHeaders := resHeaders w;
     sent := sent w; calls := calls w ++ [c]; console := console w |}.

Definition addLog (e : logEntry) (w : world) : world :=
  {| statusCode := statusCode w; resHeaders := resHeaders w;
     sent := sent w; calls := calls w; console := console w ++ [e] |}.

(** [res.status(code).json({ error })]. *)
Definition json (code : Z) (error : string) : io unit :=
  modify (λ w, finished (Json error) (withStatus code w)).

(** [res.setHeader(name, value)]. *)
Definition setHeader (name value : string) : io unit :=
  modify (withHeader name value).

(** [res.getHeader(name)]. *)
Definition getHeader (name : string) : io (option string) :=
  λ w, (Returned (resHeaders w !! name), w).

(** [res.status(code)]. *)
Definition setStatus (code : Z) : io unit := modify (withStatus code).

(** [res.redirect(code, url)]: the framework refuses a target that is not
    a string by throwing; otherwise it writes the status and the
    [Location] header and ends the response. *)
Definition redirect (code : Z) (url : val) : io unit :=
  match url with
  | VString u =>
      modify (λ w, finished (Redirected u)
                     (withHeader "Location" u (withStatus code w)))
  | _ => throw "Invalid redirect arguments"
  end.

(** [res.end()]. *)
Definition endResponse : io unit := modify (finished Ended).

(** [upstreamRes.body.pipe(res)]. *)
Definition pipe (bytes : string) : io unit := modify (finished (Piped bytes)).

Definition logCall (c : call) : io unit := modify (addCall c).

Definition logConsole (e : logEntry) : io unit := modify (addLog e).

(** The Notion client: [notion.getPage(pageId, opts)] answers a record map
    (its root and the store holding it) or rejects ([None]). *)
Class NotionClient :=
  getPageResult : string → GetPageOptions → option (heap * val).

(** [node-fetch]: [fetch(url, { method, headers })] answers a response or
    rejects ([None]). *)
Class FetchApi :=
  fetchResult :
    string → option string → gmap string string → option fetchResponse.

Definition getPage `{NotionClient} (pageId : string) (opts : GetPageOptions)
    : io (heap * val) :=
  logCall (GetPage pageId opts);;
  match getPageResult pageId opts with
  | Some r => ret r
  | None => throw "getPage rejected"
  end.

Definition fetch `{FetchApi} (url : string) (meth : option string)
    (hdrs : gmap string string) : io fetchResponse :=
  logCall (Fetch url meth hdrs);;
  match fetchResult url meth hdrs with
  | Some r => ret r
  | None => throw "fetch rejected"
  end.

End Http.

(** ** The redirect handler (pages/api/notion-file) *)

Module NotionFile.
Import Http.

Definition ALLOWED_HOSTS : list string := ["amazonaws.com"; "notion.so"].

Section WithServices.
Context `{UrlApi} `{NotionClient}.

Definition isAllowedHost (rawUrl : string) : bool :=
  match URL_hostname rawUrl with
  | Some hostname =>
      existsb
        (λ host, String.eqb hostname host
                 || JsString.endsWith hostname ("." +:+ host))
        ALLOWED_HOSTS
  | None => false
  end.

(** [(recordMap?.block?.[blockId]?.value)?.properties?.source?.[0]?.[0]] *)
Definition rawSource (h : heap) (recordMap : val) (blockId : string) : val :=
  let value := Js.get h (Js.get h (Js.get h recordMap "block") blockId) "value" in
  Js.get h (Js.get h (Js.get h (Js.get h value "properties") "source") "0") "0".

(** The raw-URL path, which the source writes out twice: after a signed
    fetch that gave no signed URL, and after the unsigned retry. *)
Definition redirectToRaw (rawUrl : val) : io unit :=
  if negb (Js.truthy rawUrl)
  then json 404 "File URL not found for block"
  else if negb (isAllowedHost (Js.ToString rawUrl))
  then json 400 "Unexpected redirect target"
  else redirect 302 rawUrl.

(** The body of the outer [try]: the signed fetch and what follows when
    it succeeds. *)
Definition signedAttempt (pageId blockId : string) : io unit :=
  '(h, recordMap) ←
    getPage pageId {| fetchMissingBlocks := false;
                      fetchCollections := false;
                      signFileUrls := true |};
  let freshUrl := Js.get h (Js.get h recordMap "signed_urls") blockId in
  if Js.truthy freshUrl
  then
    if negb (isAllowedHost (Js.ToString freshUrl))
    then json 400 "Unexpected redirect target"
    else
      setHeader "Cache-Control"
        "public, s-maxage=3300, stale-while-revalidate=86400";;
      redirect 302 freshUrl
  else redirectToRaw (rawSource h recordMap blockId).

(** The body of the inner [try]: the retry with signing disabled. *)
Definition unsignedAttempt (pageId blockId : string) : io unit :=
  '(h, recordMap) ←
    getPage pageId {| fetchMissingBlocks := false;
                      fetchCollections := false;
                      signFileUrls := false |};
  redirectToRaw (rawSource h recordMap blockId).

(** The outer [catch] clause. *)
Definition fallback (pageId blockId : string) (err : string) : io unit :=
  logConsole (Warn "notion-file: signFileUrls failed (missing NOTION_TOKEN?), falling back to raw URL");;
  tryCatch (unsignedAttempt pageId blockId)
    (λ fallbackErr,
       logConsole (Error "notion-file: fallback fetch also failed");;
       json 502 "Failed to fetch signed URL").

Definition notionFileHandler (req : request) : io unit :=
  if negb (bool_decide (method req = Some "GET"))
  then json 405 "Method not allowed"
  else
    match requiredString (query req !! "blockId") with
    | None => json 400 "Missing blockId parameter"
    | Some blockId =>
    match requiredString (query req !! "pageId") with
    | None => json 400 "Missing pageId parameter"
    | Some pageId =>
        tryCatch (signedAttempt pageId blockId) (fallback pageId blockId)
    end
    end.
End WithServices.
End NotionFile.

(** ** The streaming proxy (pages/api/assets-pdf) *)

Module AssetsPdf.
Import Http.

Definition ALLOWED_HOSTS : list string := ["amazonaws.com"; "notion.so"].

Definition PASSTHROUGH_HEADERS : list string :=
  ["accept-ranges"; "cache-control"; "content-length"; "content-range";
   "content-type"; "etag"; "last-modified"].

(** [for (const x of xs) { f(x) }] *)
Fixpoint forEach {A} (xs : list A) (f : A → io unit) : io unit :=
  match xs with
  | [] => ret ()
  | x :: rest => f x;; forEach rest f
  end.

(** The request headers handed on to the upstream, each only when it is a
    string. *)
Definition forwardedHeaders (req : request) : gmap string string :=
  let hdrs : gmap string string := ∅ in
  let hdrs :=
    match stringParam (headers req !! "range") with
    | Some v => <["range" := v]> hdrs
    | None => hdrs
    end in
  let hdrs :=
    match stringParam (headers req !! "if-none-match") with
    | Some v => <["if-none-match" := v]> hdrs
    | None => hdrs
    end in
  match stringParam (headers req !! "if-modified-since") with
  | Some v => <["if-modified-since" := v]> hdrs
  | None => hdrs
  end.

Section WithServices.
Context `{UrlApi} `{NotionClient} `{FetchApi}.

Definition isAllowedHost (rawUrl : string) : bool :=
  match URL_hostname rawUrl with
  | Some hostname =>
      existsb
        (λ host, String.eqb hostname host
                 || JsString.endsWith hostname ("." +:+ host))
        ALLOWED_HOSTS
  | None => false
  end.

(** [typeof rawUrl === 'string' ? rawUrl : undefined] *)
Definition getRawSourceUrl (h : heap) (recordMap : val) (blockId : string)
    : option string :=
  let value := Js.get h (Js.get h (Js.get h recordMap "block") blockId) "value" in
  let rawUrl :=
    Js.get h (Js.get h (Js.get h (Js.get h value "properties") "source") "0") "0" in
  match rawUrl with
  | VString s => Some s
  | _ => None
  end.

(** The [try] block of [resolvePdfUrl]: [Some url] when it returns from
    the function, [None] when control leaves the block without a
    [return]; a rejected [getPage] is caught and falls through too. *)
Definition resolveSigned (pageId blockId : string) : io (option string) :=
  tryCatch
    ('(h, recordMap) ←
       getPage pageId {| fetchMissingBlocks := false;
                         fetchCollections := false;
                         signFileUrls := true |};
     let freshUrl := Js.get h (Js.get h recordMap "signed_urls") blockId in
     match freshUrl with
     | VString url => ret (Some url)
     | _ =>
         match getRawSourceUrl h recordMap blockId with
         | Some fallbackUrl =>
             if String.eqb fallbackUrl EmptyString then ret None
             else ret (Some fallbackUrl)
         | None => ret None
         end
     end)
    (λ _, ret None).

Definition resolvePdfUrl (pageId blockId : string) : io string :=
  returned ← resolveSigned pageId blockId;
  match returned with
  | Some url => ret url
  | None =>
      '(h, fallbackMap) ←
        getPage pageId {| fetchMissingBlocks := false;
                          fetchCollections := false;
                          signFileUrls := false |};
      match getRawSourceUrl h fallbackMap blockId with
      | Some fallbackUrl =>
          if String.eqb fallbackUrl EmptyString
          then throw "File URL not found for block"
          else ret fallbackUrl
      | None => throw "File URL not found for block"
      end
  end.

(** After a successful [fetch]: status, passed-through headers, default
    caching header, then the body.  (The [error] listener on the body
    acts only once streaming has begun, which is beyond this model.) *)
Definition relay (req : request) (upstreamRes : fetchResponse) : io unit :=
  setStatus (status upstreamRes);;
  forEach PASSTHROUGH_HEADERS
    (λ header,
       match responseHeaders upstreamRes !! header with
       | Some value =>
           if String.eqb value EmptyString then ret () else setHeader header value
       | None => ret ()
       end);;
  cacheControl ← getHeader "cache-control";
  (match cacheControl with
   | Some v =>
       if String.eqb v EmptyString
       then setHeader "cache-control"
              "public, s-maxage=300, stale-while-revalidate=3600"
       else ret ()
   | None =>
       setHeader "cache-control"
         "public, s-maxage=300, stale-while-revalidate=3600"
   end);;
  if bool_decide (method req = Some "HEAD") then endResponse
  else
    match body upstreamRes with
    | None => endResponse
    | Some bytes => pipe bytes
    end.

(** The body of the handler's [try]. *)
Definition proxy (req : request) (pageId blockId : string) : io unit :=
  upstreamUrl ← resolvePdfUrl pageId blockId;
  if negb (isAllowedHost upstreamUrl)
  then json 400 "Unexpected file host"
  else
    upstreamRes ← fetch upstreamUrl (method req) (forwardedHeaders req);
    relay req upstreamRes.

Definition assetsPdfHandler (req : request) : io unit :=
  if negb (bool_decide (method req = Some "GET"))
     && negb (bool_decide (method req = Some "HEAD"))
  then json 405 "Method not allowed"
  else
    match requiredString (query req !! "blockId") with
    | None => json 400 "Missing blockId parameter"
    | Some blockId =>
    match requiredString (query req !! "pageId") with
    | None => json 400 "Missing pageId parameter"
    | Some pageId =>
        tryCatch (proxy req pageId blockId)
          (λ err,
             logConsole (Error "assets-pdf proxy failed");;
             json 502 "Failed to proxy PDF")
    end
    end.
End WithServices.
End AssetsPdf.

(** * Vocabulary of the properties *)

(** ** Notions of the specification *)

Module Spec.

Definition allowedDomains : list string := ["amazonaws.com"; "notion.so"].

(** [hostname] is a subdomain of [domain]: it ends with [.domain]. *)
Definition subdomainOf (hostname domain : string) : Prop :=
  ∃ sub, hostname = sub +:+ "." +:+ domain.

(** The hostname equals an allow-listed domain or is a subdomain of one. *)
Definition allowListed (hostname : string) : Prop :=
  ∃ domain, domain ∈ allowedDomains ∧
    (hostname = domain ∨ subdomainOf hostname domain).

(** A request parameter that is missing or is not a single string. *)
Definition missingOrNotString (p : option Http.param) : Prop :=
  p = None ∨ ∃ ss, p = Some (Http.PArray ss).

(** The two ways the handlers fetch a page: with signing enabled, and
    with signing disabled. *)
Definition signing : Http.GetPageOptions :=
  {| Http.fetchMissingBlocks := false; Http.fetchCollections := false;
     Http.signFileUrls := true |}.

Definition notSigning : Http.GetPageOptions :=
  {| Http.fetchMissingBlocks := false; Http.fetchCollections := false;
     Http.signFileUrls := false |}.

(** A well-formed request of the given method for one block of one page. *)
Definition requestFor (meth blockId pageId : string) (req : Http.request)
    : Prop :=
  Http.method req = Some meth
  ∧ Http.query req !! "blockId" = Some (Http.PString blockId)
  ∧ Http.query req !! "pageId" = Some (Http.PString pageId)
  ∧ blockId ≠ EmptyString ∧ pageId ≠ EmptyString.

(** The URL the redirect handler settles on: the fresh signed URL when
    the signed fetch gives one, else the raw source URL of that fetch;
    when the signed fetch throws, the raw source URL of the unsigned
    fetch. *)
Definition redirectTarget `{Http.NotionClient} (pageId blockId : string)
    : option val :=
  match Http.getPageResult pageId signing with
  | Some (h, recordMap) =>
      let freshUrl := Js.get h (Js.get h recordMap "signed_urls") blockId in
      if Js.truthy freshUrl then Some freshUrl
      else
        let rawUrl := NotionFile.rawSource h recordMap blockId in
        if Js.truthy rawUrl then Some rawUrl else None
  | None =>
      match Http.getPageResult pageId notSigning with
      | Some (h, recordMap) =>
          let rawUrl := NotionFile.rawSource h recordMap blockId in
          if Js.truthy rawUrl then Some rawUrl else None
      | None => None
      end
  end.



(** The classifier the specification describes. *)
Definition classifies `{UrlApi} (classifier : string → bool) : Prop :=
  ∀ url, classifier url = true ↔
         ∃ hostname, URL_hostname url = Some hostname ∧ allowListed hostname.

End Spec.

(** ** Well-formed stores *)

Module Store.

(** A value refers to nothing outside the store. *)
Definition valIn (h : heap) (v : val) : Prop :=
  match v with
  | VObject l => l ∈ dom h
  | _ => True
  end.

(** No object of the store holds a dangling reference. *)
Definition closed (h : heap) : Prop :=
  map_Forall (λ _ (o : object), map_Forall (λ _ v, valIn h v) o) h.

#[global] Instance valIn_dec h v : Decision (valIn h v).
Proof. destruct v; simpl; apply _. Defined.

#[global] Instance closed_dec h : Decision (closed h).
Proof. unfold closed. apply _. Defined.

End Store.

(** ** The two rewriters as one *)

Module Rewriting.
Section WithUrl.
Context {U : UrlApi}.
Implicit Types (h : heap).

(** The type of the block an entry belongs to, as the loop reads it. *)
Definition blockTypeOf h (recordMap : val) (blockId : string) : val :=
  Js.get h
    (Js.get h (Js.get h (Js.get h recordMap "block") blockId) "value")
    "type".

(** Both rewriters are one loop, over a test on the block type and a
    local path. *)
Definition entryWith (target : val → bool)
    (proxyPath : string → string → string)
    (recordMap : val) (pageId : string) (rewritten : loc)
    h (entry : string * val) : heap :=
  match entry.2 with
  | VString url =>
      if target (blockTypeOf h recordMap entry.1)
         && RewritePdf.isNotionHostedUrl url
      then Js.setProp h rewritten entry.1
             (VString (proxyPath pageId entry.1))
      else Js.setProp h rewritten entry.1 entry.2
  | _ => h
  end.

Definition rewriteWith (target : val → bool)
    (proxyPath : string → string → string)
    h (recordMap : val) (pageId : string) : heap * val :=
  if negb (Js.truthy (Js.get h recordMap "signed_urls"))
  then (h, recordMap)
  else
    let h1 := (Js.alloc h ∅).1 in
    let rewritten := (Js.alloc h ∅).2 in
    let h2 :=
      foldl (entryWith target proxyPath recordMap pageId rewritten) h1
        (Js.entries h1 (Js.get h1 recordMap "signed_urls")) in
    let result :=
      Js.alloc h2
        (<["signed_urls" := VObject rewritten]> (Js.props h2 recordMap)) in
    (result.1, VObject result.2).

Definition pdfTarget (blockType : val) : bool :=
  Js.strictEquals blockType (VString "pdf").

Definition pdfPath (pageId blockId : string) : string :=
  "/assets-pdf/" +:+ JsString.encodeURIComponent pageId
    +:+ "/" +:+ JsString.encodeURIComponent blockId.

Definition fileTarget (blockType : val) : bool :=
  Js.truthy blockType && NotionApi.FILE_BLOCK_TYPES_has blockType.

Definition filePath (pageId blockId : string) : string :=
  "/api/notion-file?blockId=" +:+ JsString.encodeURIComponent blockId
    +:+ "&pageId=" +:+ JsString.encodeURIComponent pageId.

(** What the loop stores for one entry, read off the input store; [None]
    when the entry is skipped. *)
Definition rewrittenValue (target : val → bool)
    (proxyPath : string → string → string)
    h (recordMap : val) (pageId : string)
    (blockId : string) (signedUrl : val) : option val :=
  match signedUrl with
  | VString url =>
      Some (if target (blockTypeOf h recordMap blockId)
               && RewritePdf.isNotionHostedUrl url
            then VString (proxyPath pageId blockId)
            else signedUrl)
  | _ => None
  end.

(** One iteration, on the contents of [rewritten] alone. *)
Definition collect (f : string → val → option val)
    (acc : object) (entry : string * val) : object :=
  match f entry.1 entry.2 with
  | Some w => <[entry.1 := w]> acc
  | None => acc
  end.

Definition rewrittenMap (target : val → bool)
    (proxyPath : string → string → string)
    h (recordMap : val) (pageId : string) : object :=
  map_imap (rewrittenValue target proxyPath h recordMap pageId)
    (Js.props h (Js.get h recordMap "signed_urls")).

(** Two record maps, each in its store, that hold the same data: either
    the very same value in the same store, or two objects that agree
    under every key but [signed_urls], where each holds a mapping object
    and the two mappings have the same entries. *)
Definition sameRecordMap h1 (r1 : val) h2 (r2 : val) : Prop :=
  (h1 = h2 ∧ r1 = r2)
  ∨ ∃ (s1 s2 : loc) (m : object),
      Js.isObject r1 = true ∧ Js.isObject r2 = true
      ∧ delete "signed_urls" (Js.props h1 r1)
        = delete "signed_urls" (Js.props h2 r2)
      ∧ Js.get h1 r1 "signed_urls" = VObject s1
      ∧ Js.get h2 r2 "signed_urls" = VObject s2
      ∧ h1 !! s1 = Some m ∧ h2 !! s2 = Some m.

End WithUrl.
End Rewriting.

(** ** Properties of computations *)

Module IoLogic.
Import Http.

(** [m] always returns. *)
Definition total {A} (m : io A) : Prop := ∀ w, ∃ a, (m w).1 = Returned a.

(** [m] keeps [P] true of the world, whether it returns or throws. *)
Definition preserves {A} (P : world → Prop) (m : io A) : Prop :=
  ∀ w, P w → P (m w).2.

(** [m] makes no upstream call. *)
Definition silent {A} (m : io A) : Prop := ∀ w, calls (m w).2 = calls w.

(** Every redirect sent so far goes to an accepted URL. *)
Definition redirectsAccepted (accepts : string → bool) (w : world) : Prop :=
  ∀ url, Redirected url ∈ sent w → accepts url = true.

(** Every [fetch] made so far went to an accepted URL. *)
Definition fetchesAccepted (accepts : string → bool) (w : world) : Prop :=
  ∀ url meth hdrs, Fetch url meth hdrs ∈ calls w → accepts url = true.

(** No [fetch] was made. *)
Definition noFetch (w : world) : Prop :=
  ∀ url meth hdrs, Fetch url meth hdrs ∉ calls w.

End IoLogic.

(** ** A page to run the code on *)

Module Example.

(** A record map with a [pdf] block [b1] and an [image] block [b2], both
    with a signed URL, an entry [b3] whose signed URL is [null], and an
    entry [b4] signed for a host that is not on the allow-list. *)
Definition store : heap :=
  {[ 1%positive := {[ "block" := VObject 2; "signed_urls" := VObject 3 ]};
     2%positive := {[ "b1" := VObject 4; "b2" := VObject 6 ]};
     3%positive := {[ "b1" := VString "https://s3.amazonaws.com/x";
                      "b2" := VString "https://s3.amazonaws.com/y";
                      "b3" := VNull;
                      "b4" := VString "https://example.com/z" ]};
     4%positive := {[ "value" := VObject 5 ]};
     5%positive := {[ "type" := VString "pdf"; "properties" := VObject 8 ]};
     6%positive := {[ "value" := VObject 7 ]};
     7%positive := {[ "type" := VString "image" ]};
     8%positive := {[ "source" := VObject 9 ]};
     9%positive := {[ "0" := VObject 10 ]};
     10%positive := {[ "0" := VString "https://s3.amazonaws.com/raw" ]};
     11%positive := {[ "block" := VObject 2 ]} ]}.

Definition recordMap : val := VObject 1.

(** The same blocks, without a [signed_urls] mapping. *)
Definition unsignedRecordMap : val := VObject 11.

(** A workspace that signs. *)
Definition publicNotion : Http.NotionClient :=
  λ pageId opts,
    if String.eqb pageId "page 1"
    then Some (store, if Http.signFileUrls opts then recordMap
                      else unsignedRecordMap)
    else None.

(** A private workspace without credentials: signing fails. *)
Definition privateNotion : Http.NotionClient :=
  λ pageId opts,
    if Http.signFileUrls opts then None
    else if String.eqb pageId "page 1"
    then Some (store, unsignedRecordMap)
    else None.


(** An upstream that answers every request with a small PDF. *)
Definition storage : Http.FetchApi :=
  λ url meth hdrs,
    Some {| Http.status := 200;
            Http.responseHeaders := {[ "content-type" := "application/pdf" ]};
            Http.body := Some "%PDF-1.7" |}.


Definition blockOfPage : list (string * string) :=
  [("blockId", "b1"); ("pageId", "page 1")].

Definition foreignBlockOfPage : list (string * string) :=
  [("blockId", "b4"); ("pageId", "page 1")].

Definition request (meth : string) (params : list (string * string))
    : Http.request :=
  {| Http.method := Some meth;
     Http.query := list_to_map (prod_map id Http.PString <$> params);
     Http.headers := ∅ |}.

(** The record map of the example with an empty signed URL for [b1]. *)
Definition emptySignedStore : heap :=
  <[3%positive := {[ "b1" := VString EmptyString ]}]> Example.store.

Definition emptySigningNotion : Http.NotionClient :=
  λ pageId opts,
    if String.eqb pageId "page 1"
    then Some (emptySignedStore, Example.recordMap)
    else None.

End Example.

(** ** Further notions *)

Module Rewritten.
Section WithUrl.
Context {U : UrlApi}.

(** The signed-URL mapping of a record map. *)
Definition mapping (h : heap) (recordMap : val) : object :=
  Js.props h (Js.get h recordMap "signed_urls").

(** An entry the loop replaces: its value is a string, its block passes
    the test on the block type, and its URL passes the classifier. *)
Definition replaced (target : val → bool) (h : heap) (recordMap : val)
    (blockId : string) : Prop :=
  ∃ url, mapping h recordMap !! blockId = Some (VString url)
         ∧ target (Rewriting.blockTypeOf h recordMap blockId) = true
         ∧ RewritePdf.isNotionHostedUrl url = true.

End WithUrl.
End Rewritten.

Module Uri.

(** The value of a hexadecimal digit, as [percentEncode] writes them. *)
Definition hexValue (c : ascii) : N :=
  let n := N_of_ascii c in if (n <? 58)%N then (n - 48)%N else (n - 55)%N.

(** Reading back what [encodeURIComponent] wrote. *)
Fixpoint decode (s : string) : string :=
  match s with
  | EmptyString => EmptyString
  | String c rest =>
      if Ascii.eqb c "%"
      then
        match rest with
        | String hi (String lo rest') =>
            String (ascii_of_N (16 * hexValue hi + hexValue lo)) (decode rest')
        | _ => String c (decode rest)
        end
      else String c (decode rest)
  end.

(** The character [c] occurs in [s]. *)
Fixpoint contains (c : ascii) (s : string) : bool :=
  match s with
  | EmptyString => false
  | String x rest => Ascii.eqb c x || contains c rest
  end.

End Uri.

Module Answers.
Import Http.

(** [m] sends nothing. *)
Definition quiet {A} (m : io A) : Prop := ∀ w, sent (m w).2 = sent w.

(** Started before anything was sent, [m] either returns having sent one
    payload, which [ok] accepts in the world it leaves, or throws having
    sent nothing. *)
Definition answers {A} (ok : world → payload → Prop) (m : io A) : Prop :=
  ∀ w, sent w = [] →
    match m w with
    | (Returned _, w') => ∃ p, sent w' = [p] ∧ ok w' p
    | (Thrown _, w') => sent w' = []
    end.

(** What the redirect handler may answer: a 302 with its [Location], or
    an error message under 400, 404, 405 or 502. *)
Definition redirectAnswer (w : world) (p : payload) : Prop :=
  (statusCode w = 302%Z
   ∧ ∃ url, p = Redirected url ∧ resHeaders w !! "Location" = Some url)
  ∨ (statusCode w ∈ [400; 404; 405; 502]%Z ∧ ∃ error, p = Json error).

(** What the streaming proxy may answer: the upstream response, with or
    without a body, or an error message under 400, 405 or 502. *)
Definition proxyAnswer (w : world) (p : payload) : Prop :=
  p = Ended ∨ (∃ bytes, p = Piped bytes)
  ∨ (statusCode w ∈ [400; 405; 502]%Z ∧ ∃ error, p = Json error).

End Answers.

(** ** What the streaming proxy hands on *)

Module Relayed.
Import Http.

(** What one turn of the loop over [PASSTHROUGH_HEADERS] does. *)
Definition passHeader (upstreamRes : fetchResponse) (header : string)
    (w : world) : world :=
  match responseHeaders upstreamRes !! header with
  | Some value =>
      if String.eqb value EmptyString then w else withHeader header value w
  | None => w
  end.

(** The value of a response header that the proxy hands on: that of a
    header on its list which the upstream gave a non-empty value. *)
Definition passed (upstreamRes : fetchResponse) (name : string)
    : option string :=
  if bool_decide (name ∈ AssetsPdf.PASSTHROUGH_HEADERS)
  then
    match responseHeaders upstreamRes !! name with
    | Some value => if String.eqb value EmptyString then None else Some value
    | None => None
    end
  else None.

(** The request headers the proxy hands on. *)
Definition forwardable : list string :=
  ["range"; "if-none-match"; "if-modified-since"].

(** A query parameter the handlers refuse: missing, repeated, or empty. *)
Definition unusable (p : option param) : Prop :=
  p = None ∨ p = Some (PString EmptyString) ∨ ∃ ss, p = Some (PArray ss).

End Relayed.

(** * Properties *)

(** ** Running the code *)

Example endsWith_subdomain :
  JsString.endsWith "s3.us-west-2.amazonaws.com" ".amazonaws.com" = true.
Proof. reflexivity. Qed.

Example endsWith_shorter : JsString.endsWith "com" "amazonaws.com" = false.
Proof. reflexivity. Qed.

Example encodeURIComponent_reserved :
  JsString.encodeURIComponent "a b/c?d=e&f" = "a%20b%2Fc%3Fd%3De%26f".
Proof. reflexivity. Qed.

Example encodeURIComponent_unreserved :
  JsString.encodeURIComponent "Az09-_.!~*'()" = "Az09-_.!~*'()".
Proof. reflexivity. Qed.

Example hostname_of_signed_url :
  Whatwg.hostname "https://s3.us-west-2.amazonaws.com/secure/x.pdf?sig=1"
  = Some "s3.us-west-2.amazonaws.com".
Proof. reflexivity. Qed.

Example hostname_of_local_path :
  Whatwg.hostname "/api/notion-file?blockId=b1&pageId=p" = None.
Proof. reflexivity. Qed.

Example general_rewriter_on_example :
  let out :=
    @NotionApi.rewriteNotionFileUrls Whatwg.api
      Example.store Example.recordMap "page 1" in
  map_to_list (Js.props out.1 (Js.get out.1 out.2 "signed_urls"))
  ≡ₚ [("b1", VString "/api/notion-file?blockId=b1&pageId=page%201");
      ("b2", VString "https://s3.amazonaws.com/y");
      ("b4", VString "https://example.com/z")].
Proof. vm_compute. by rewrite Permutation_swap. Qed.

Example redirect_on_example :
  (@NotionFile.notionFileHandler Whatwg.api Example.publicNotion
     (Example.request "GET" Example.blockOfPage) Http.initial).2
  = {| Http.statusCode := 302;
       Http.resHeaders :=
         {[ "Cache-Control" :=
              "public, s-maxage=3300, stale-while-revalidate=86400";
            "Location" := "https://s3.amazonaws.com/x" ]};
       Http.sent := [Http.Redirected "https://s3.amazonaws.com/x"];
       Http.calls := [Http.GetPage "page 1" Spec.signing];
       Http.console := [] |}.
Proof. by vm_compute. Qed.

Example stream_on_example :
  let w :=
    (@AssetsPdf.assetsPdfHandler Whatwg.api Example.publicNotion
       Example.storage (Example.request "HEAD" Example.blockOfPage)
       Http.initial).2 in
  Http.statusCode w = 200%Z
  ∧ Http.sent w = [Http.Ended]
  ∧ Http.resHeaders w !! "content-type" = Some "application/pdf"
  ∧ Http.resHeaders w !! "cache-control"
    = Some "public, s-maxage=300, stale-while-revalidate=3600"
  ∧ Http.calls w
    = [Http.GetPage "page 1" Spec.signing;
       Http.Fetch "https://s3.amazonaws.com/x" (Some "HEAD") ∅].
Proof. by vm_compute. Qed.

(** ** Strings *)

Section StringFacts.

Lemma length_append (a b : string) :
  String.length (a +:+ b) = (String.length a + String.length b)%nat.
Proof. induction a as [|c a IH]; simpl; [done | by rewrite IH]. Qed.

Lemma substring_whole (t : string) : substring 0 (String.length t) t = t.
Proof. induction t as [|c t IH]; simpl; [done | by rewrite IH]. Qed.

Lemma substring_after_prefix (p t : string) :
  substring (String.length p) (String.length t) (p +:+ t) = t.
Proof. induction p as [|c p IH]; simpl; [apply substring_whole | done]. Qed.

Lemma substring_split (n : nat) (s : string) :
  (n ≤ String.length s)%nat →
  s = substring 0 n s +:+ substring n (String.length s - n) s.
Proof.
  revert s. induction n as [|n IH]; intros s Hn.
  - rewrite Nat.sub_0_r, substring_whole. by destruct s.
  - destruct s as [|c s]; simpl in *; [lia |].
    rewrite (IH s) at 1 by lia. reflexivity.
Qed.

(** [endsWith] is the suffix relation. *)
Lemma endsWith_spec (s t : string) :
  JsString.endsWith s t = true ↔ ∃ p, s = p +:+ t.
Proof.
  unfold JsString.endsWith. split.
  - destruct (Nat.ltb_spec (String.length s) (String.length t)) as [|Hle];
      [done |].
    intros Heq%String.eqb_eq.
    exists (substring 0 (String.length s - String.length t) s).
    rewrite (substring_split (String.length s - String.length t) s)
      at 1 by lia.
    f_equal.
    replace (String.length s - (String.length s - String.length t))%nat
      with (String.length t) by lia.
    exact Heq.
  - intros [p ->]. rewrite length_append.
    destruct (Nat.ltb_spec (String.length p + String.length t)
                (String.length t)) as [|_]; [lia |].
    replace (String.length p + String.length t - String.length t)%nat
      with (String.length p) by lia.
    rewrite substring_after_prefix. apply String.eqb_refl.
Qed.

Lemma append_cons (x : ascii) (a b : string) :
  String x a +:+ b = String x (a +:+ b).
Proof. reflexivity. Qed.

Lemma append_assoc (a b c : string) : (a +:+ b) +:+ c = a +:+ (b +:+ c).
Proof.
  induction a as [|x a IH]; [done |]. by rewrite !append_cons, IH.
Qed.

End StringFacts.

(** ** The classifiers *)

Section Classifiers.
Context {U : UrlApi}.

Lemma allowListed_iff (hostname : string) :
  Spec.allowListed hostname ↔
  existsb
    (λ host, String.eqb hostname host
             || JsString.endsWith hostname ("." +:+ host))
    Spec.allowedDomains = true.
Proof.
  rewrite existsb_exists. unfold Spec.allowListed, Spec.subdomainOf.
  split.
  - intros (d & Hd & Hh). exists d. split; [by apply list_elem_of_In |].
    apply orb_true_iff. destruct Hh as [->|Hsub].
    + left. apply String.eqb_refl.
    + right. by apply endsWith_spec.
  - intros (d & Hd & Hh). exists d. split; [by apply list_elem_of_In |].
    apply orb_true_iff in Hh as [Heq%String.eqb_eq | Hsuf%endsWith_spec];
      [by left | by right].
Qed.

(** The handlers' classifier is the one the specification describes,
    whatever the parser. *)
Lemma notionFile_isAllowedHost_spec :
  Spec.classifies NotionFile.isAllowedHost.
Proof.
  intros url. unfold NotionFile.isAllowedHost.
  destruct (URL_hostname url) as [hostname|].
  - change NotionFile.ALLOWED_HOSTS with Spec.allowedDomains.
    rewrite <- allowListed_iff. split.
    + intros Hallowed. by exists hostname.
    + by intros (? & [= <-] & Hallowed).
  - split; [done | by intros (? & ? & ?)].
Qed.

Lemma assetsPdf_isAllowedHost_spec :
  Spec.classifies AssetsPdf.isAllowedHost.
Proof. exact notionFile_isAllowedHost_spec. Qed.

Lemma isAllowedHost_same (url : string) :
  AssetsPdf.isAllowedHost url = NotionFile.isAllowedHost url.
Proof. reflexivity. Qed.

Lemma isNotionHostedUrl_same (url : string) :
  NotionApi.isNotionHostedUrl url = RewritePdf.isNotionHostedUrl url.
Proof. reflexivity. Qed.

(** The rewriters' classifier accepts everything the handlers' accepts,
    for a parser that rejects the empty string. *)
Lemma isAllowedHost_isNotionHostedUrl (url : string) :
  URL_hostname EmptyString = None →
  NotionFile.isAllowedHost url = true →
  RewritePdf.isNotionHostedUrl url = true.
Proof.
  intros Hempty. unfold NotionFile.isAllowedHost, RewritePdf.isNotionHostedUrl.
  destruct (String.eqb_spec url EmptyString) as [->|_]; [by rewrite Hempty |].
  destruct (URL_hostname url) as [hostname|]; [| done].
  simpl. rewrite !orb_false_r, !orb_true_iff.
  intros [[Heq%String.eqb_eq | Hsuf%endsWith_spec] | [Heq | Hsuf]].
  - left; left. subst. reflexivity.
  - left; left. destruct Hsuf as [p ->]. apply endsWith_spec.
    exists (p +:+ "."). by rewrite append_assoc.
  - left; by right.
  - by right.
Qed.

(** The two classifiers part only on a hostname that ends with
    [amazonaws.com] without being that domain or a subdomain of it. *)
Lemma classifiers_differ_only_on_suffix (url : string) :
  URL_hostname EmptyString = None →
  RewritePdf.isNotionHostedUrl url ≠ NotionFile.isAllowedHost url →
  ∃ hostname pre,
    URL_hostname url = Some hostname ∧
    hostname = pre +:+ "amazonaws.com" ∧
    ¬ Spec.allowListed hostname.
Proof.
  intros Hempty Hne.
  destruct (NotionFile.isAllowedHost url) eqn:Ha.
  { by rewrite (isAllowedHost_isNotionHostedUrl url Hempty Ha) in Hne. }
  destruct (RewritePdf.isNotionHostedUrl url) eqn:Hn; [| done].
  assert (Hnot : ¬ ∃ hostname,
             URL_hostname url = Some hostname ∧ Spec.allowListed hostname).
  { rewrite <- (notionFile_isAllowedHost_spec url). by rewrite Ha. }
  unfold RewritePdf.isNotionHostedUrl in Hn.
  destruct (String.eqb_spec url EmptyString); [done |].
  destruct (URL_hostname url) as [hostname|] eqn:Hhost; [| done].
  assert (Hno : ¬ Spec.allowListed hostname) by naive_solver.
  rewrite !orb_true_iff in Hn.
  destruct Hn as [[Hsuf | Heq] | Hdot].
  - apply endsWith_spec in Hsuf as [pre ->].
    by exists (pre +:+ "amazonaws.com"), pre.
  - apply String.eqb_eq in Heq.
    exfalso. apply Hno. exists "notion.so".
    split; [apply list_elem_of_In; right; by left | by left].
  - apply endsWith_spec in Hdot.
    exfalso. apply Hno. exists "notion.so".
    split; [apply list_elem_of_In; right; by left | right; exact Hdot].
Qed.

End Classifiers.

(** ** The classifiers on a look-alike host *)

Section Lookalike.
Context {U : UrlApi}.

(** Whatever the parser: a hostname that merely ends with the letters
    [amazonaws.com] is accepted by the rewriters' classifier. *)
Lemma isNotionHostedUrl_suffix_only (url pre : string) :
  url ≠ EmptyString →
  URL_hostname url = Some (pre +:+ "amazonaws.com") →
  RewritePdf.isNotionHostedUrl url = true.
Proof.
  intros Hne%String.eqb_neq Hhost. unfold RewritePdf.isNotionHostedUrl.
  rewrite Hne, Hhost.
  assert (Hsuf : JsString.endsWith (pre +:+ "amazonaws.com") "amazonaws.com"
                 = true) by (apply endsWith_spec; by exists pre).
  by rewrite Hsuf.
Qed.

End Lookalike.

(** C1, at [https://evilamazonaws.com/x]: the string parses, its hostname
    [evilamazonaws.com] is neither an allow-listed domain nor a subdomain
    of one, the handlers' classifier refuses it, and the rewriters'
    classifier accepts it. *)
Theorem isNotionHostedUrl_accepts_lookalike :
  Whatwg.hostname "https://evilamazonaws.com/x" = Some "evilamazonaws.com"
  ∧ ¬ Spec.allowListed "evilamazonaws.com"
  ∧ @NotionFile.isAllowedHost Whatwg.api "https://evilamazonaws.com/x" = false
  ∧ @AssetsPdf.isAllowedHost Whatwg.api "https://evilamazonaws.com/x" = false
  ∧ @RewritePdf.isNotionHostedUrl Whatwg.api "https://evilamazonaws.com/x"
    = true
  ∧ @NotionApi.isNotionHostedUrl Whatwg.api "https://evilamazonaws.com/x"
    = true.
Proof.
  repeat apply conj; try reflexivity.
  rewrite allowListed_iff. by vm_compute.
Qed.

(** C9, at the same input: the two classifiers disagree. *)
Theorem classifiers_disagree_on_lookalike :
  @RewritePdf.isNotionHostedUrl Whatwg.api "https://evilamazonaws.com/x"
  ≠ @NotionFile.isAllowedHost Whatwg.api "https://evilamazonaws.com/x"
  ∧ @NotionApi.isNotionHostedUrl Whatwg.api "https://evilamazonaws.com/x"
    ≠ @AssetsPdf.isAllowedHost Whatwg.api "https://evilamazonaws.com/x".
Proof. split; by vm_compute. Qed.

(** ** Reading and writing the store *)

Section StoreFacts.
Implicit Types (h : heap) (o : object) (v : val) (l : loc) (k : string).

(** What is read out of a closed store lies in the store. *)
Lemma get_valIn h v k : Store.closed h → Store.valIn h (Js.get h v k).
Proof.
  intros Hc. unfold Js.get.
  destruct v as [| | | | |l]; simpl; rewrite ?lookup_empty; try done.
  destruct (h !! l) as [o|] eqn:Hl; simpl; rewrite ?lookup_empty; [| done].
  destruct (o !! k) as [w|] eqn:Hk; simpl; [| done].
  exact (Hc l o Hl k w Hk).
Qed.

(** Reads through a value of the store do not see an object added at a
    location the store does not use. *)
Lemma props_frame h v l o :
  Store.valIn h v → l ∉ dom h → Js.props (<[l := o]> h) v = Js.props h v.
Proof.
  intros Hv Hl. destruct v as [| | | | |l']; try done. simpl in *.
  rewrite lookup_insert_ne; [done |]. by intros ->.
Qed.

Lemma get_frame h v k l o :
  Store.valIn h v → l ∉ dom h → Js.get (<[l := o]> h) v k = Js.get h v k.
Proof. intros Hv Hl. unfold Js.get. by rewrite props_frame. Qed.

Lemma valIn_insert h v l o : Store.valIn h v → Store.valIn (<[l := o]> h) v.
Proof.
  destruct v; simpl; try done. rewrite dom_insert_L. set_solver.
Qed.

Lemma closed_insert h l o :
  Store.closed h →
  map_Forall (λ _ v, Store.valIn (<[l := o]> h) v) o →
  Store.closed (<[l := o]> h).
Proof.
  intros Hc Ho l' o' Hl'.
  destruct (decide (l = l')) as [<-|Hne].
  - rewrite lookup_insert_eq in Hl'. by injection Hl' as <-.
  - rewrite lookup_insert_ne in Hl' by done.
    intros k v Hk. apply valIn_insert. exact (Hc l' o' Hl' k v Hk).
Qed.

Lemma truthy_get_object h v k :
  Js.truthy (Js.get h v k) = true → ∃ l, v = VObject l ∧ l ∈ dom h.
Proof.
  unfold Js.get.
  destruct v as [| | | | |l]; simpl; rewrite ?lookup_empty; try done.
  destruct (h !! l) as [o|] eqn:Hl; simpl; rewrite ?lookup_empty; [| done].
  intros _. exists l. split; [done |]. by apply elem_of_dom_2 with o.
Qed.

Lemma setProp_insert h l o k v :
  Js.setProp (<[l := o]> h) l k v = <[l := <[k := v]> o]> h.
Proof. unfold Js.setProp. by rewrite alter_insert_eq. Qed.

Lemma setProp_other h l l' k v :
  l ≠ l' → Js.setProp h l k v !! l' = h !! l'.
Proof. intros Hne. unfold Js.setProp. by rewrite lookup_alter_ne. Qed.

End StoreFacts.

(** ** The rewriters *)

Section Rewriters.
Import Rewriting.
Context {U : UrlApi}.
Implicit Types (h : heap) (o : object) (v : val) (l : loc).

Lemma foldl_ext {A B} (f g : A → B → A) (xs : list B) (a : A) :
  (∀ a x, f a x = g a x) → foldl f a xs = foldl g a xs.
Proof.
  intros Hfg. revert a. induction xs as [|x xs IH]; intros a; simpl;
    [done | by rewrite Hfg, IH].
Qed.

Lemma rewriteNotionPdfUrls_rewriteWith h recordMap pageId :
  RewritePdf.rewriteNotionPdfUrls h recordMap pageId
  = rewriteWith pdfTarget pdfPath h recordMap pageId.
Proof.
  unfold RewritePdf.rewriteNotionPdfUrls, rewriteWith.
  destruct (negb _); [done |].
  destruct (Js.alloc h ∅) as [h1 rewritten] eqn:Ha. simpl.
  erewrite (foldl_ext _ (entryWith pdfTarget pdfPath recordMap pageId rewritten)).
  - by destruct (Js.alloc _ _).
  - intros h' [blockId signedUrl]. reflexivity.
Qed.

Lemma rewriteNotionFileUrls_rewriteWith h recordMap pageId :
  NotionApi.rewriteNotionFileUrls h recordMap pageId
  = rewriteWith fileTarget filePath h recordMap pageId.
Proof.
  unfold NotionApi.rewriteNotionFileUrls, rewriteWith.
  destruct (negb _); [done |].
  destruct (Js.alloc h ∅) as [h1 rewritten] eqn:Ha. simpl.
  erewrite (foldl_ext _ (entryWith fileTarget filePath recordMap pageId rewritten)).
  - by destruct (Js.alloc _ _).
  - intros h' [blockId signedUrl]. reflexivity.
Qed.

(** *** The loop, read off the input store *)

Section Loop.
Variables (target : val → bool) (proxyPath : string → string → string).

Abbreviation rewrittenMap := (Rewriting.rewrittenMap target proxyPath).

Lemma collect_lookup_notin f (es : list (string * val)) acc k :
  k ∉ es.*1 → foldl (collect f) acc es !! k = acc !! k.
Proof.
  revert acc. induction es as [|[k0 v0] es IH]; intros acc Hk; [done |].
  simpl in *. apply not_elem_of_cons in Hk as [Hne Hk].
  rewrite IH by done. unfold collect. simpl.
  destruct (f k0 v0); [by rewrite lookup_insert_ne | done].
Qed.

Lemma collect_lookup_in f (es : list (string * val)) acc k v :
  NoDup es.*1 → (k, v) ∈ es →
  foldl (collect f) acc es !! k
  = match f k v with Some w => Some w | None => acc !! k end.
Proof.
  revert acc. induction es as [|[k0 v0] es IH]; intros acc Hnd Hin.
  { by apply not_elem_of_nil in Hin. }
  simpl in *. apply NoDup_cons in Hnd as [Hk0 Hnd].
  apply elem_of_cons in Hin as [[= -> ->] | Hin].
  - rewrite collect_lookup_notin by done. unfold collect. simpl.
    destruct (f k0 v0); [by rewrite lookup_insert_eq | done].
  - rewrite IH by done.
    assert (k0 ≠ k).
    { intros ->. apply Hk0. apply list_elem_of_fmap. by exists (k, v). }
    unfold collect at 1. simpl.
    destruct (f k v); [done |].
    destruct (f k0 v0); [by rewrite lookup_insert_ne | done].
Qed.

Lemma collect_map_to_list f (m : object) :
  foldl (collect f) ∅ (map_to_list m) = map_imap f m.
Proof.
  apply map_eq. intros k. rewrite map_lookup_imap.
  destruct (m !! k) as [v|] eqn:Hk; simpl.
  - rewrite (collect_lookup_in f _ _ k v).
    + rewrite lookup_empty. by destruct (f k v).
    + apply NoDup_fst_map_to_list.
    + by apply elem_of_map_to_list.
  - rewrite collect_lookup_notin; [by rewrite lookup_empty |].
    intros ([k' v] & Hfst & Hin)%list_elem_of_fmap. simpl in Hfst. subst k'.
    apply elem_of_map_to_list in Hin. congruence.
Qed.

Lemma blockTypeOf_frame h recordMap blockId l o :
  Store.closed h → Store.valIn h recordMap → l ∉ dom h →
  blockTypeOf (<[l := o]> h) recordMap blockId
  = blockTypeOf h recordMap blockId.
Proof.
  intros Hc Hrm Hl. unfold blockTypeOf.
  rewrite (get_frame h recordMap) by done.
  rewrite (get_frame h (Js.get h recordMap "block")) by auto using get_valIn.
  rewrite (get_frame h (Js.get h _ blockId)) by auto using get_valIn.
  rewrite (get_frame h (Js.get h _ "value")) by auto using get_valIn.
  done.
Qed.

(** The loop writes into [rewritten] only, and what it writes is
    determined by the input store. *)
Lemma loop_spec h recordMap pageId rewritten es acc :
  Store.closed h → Store.valIn h recordMap → rewritten ∉ dom h →
  foldl (entryWith target proxyPath recordMap pageId rewritten)
    (<[rewritten := acc]> h) es
  = <[rewritten :=
        foldl (collect (rewrittenValue target proxyPath h recordMap pageId))
          acc es]> h.
Proof.
  intros Hc Hrm Hl. revert acc.
  induction es as [|[blockId signedUrl] es IH]; intros acc; [done |].
  simpl. rewrite <- IH. f_equal.
  unfold entryWith, collect, rewrittenValue. simpl.
  destruct signedUrl; try done.
  rewrite blockTypeOf_frame by done.
  destruct (_ && _); by rewrite setProp_insert.
Qed.

Lemma rewriteWith_falsy h recordMap pageId :
  Js.truthy (Js.get h recordMap "signed_urls") = false →
  rewriteWith target proxyPath h recordMap pageId = (h, recordMap).
Proof. intros Hf. unfold rewriteWith. by rewrite Hf. Qed.

Lemma rewriteWith_spec h recordMap pageId :
  Store.closed h →
  Js.truthy (Js.get h recordMap "signed_urls") = true →
  rewriteWith target proxyPath h recordMap pageId
  = let rewritten := fresh (dom h) in
    let h1 := <[rewritten := rewrittenMap h recordMap pageId]> h in
    (<[fresh (dom h1) :=
         <["signed_urls" := VObject rewritten]> (Js.props h recordMap)]> h1,
     VObject (fresh (dom h1))).
Proof.
  intros Hc Ht.
  destruct (truthy_get_object _ _ _ Ht) as (l & -> & Hl).
  assert (Hfresh : fresh (dom h) ∉ dom h) by apply is_fresh.
  unfold rewriteWith. rewrite Ht. simpl negb. cbv iota.
  unfold Js.alloc. simpl fst. simpl snd. unfold Js.entries.
  rewrite (get_frame h (VObject l)) by done.
  rewrite (props_frame h (Js.get h (VObject l) "signed_urls"))
    by auto using get_valIn.
  rewrite loop_spec, collect_map_to_list by done.
  rewrite (lookup_insert_ne h (fresh (dom h)) l) by by intros <-.
  reflexivity.
Qed.

(** The signed-URL mapping of the result. *)
Lemma rewriteWith_signed_urls h recordMap pageId :
  Store.closed h →
  Js.truthy (Js.get h recordMap "signed_urls") = true →
  let out := rewriteWith target proxyPath h recordMap pageId in
  Js.props out.1 (Js.get out.1 out.2 "signed_urls")
  = rewrittenMap h recordMap pageId.
Proof.
  intros Hc Ht. rewrite rewriteWith_spec by done. simpl.
  set (rewritten := fresh (dom h)).
  set (h1 := <[rewritten := _]> h).
  unfold Js.get at 1. simpl.
  rewrite lookup_insert_eq. simpl. rewrite lookup_insert_eq. simpl.
  rewrite lookup_insert_ne.
  - unfold h1. by rewrite lookup_insert_eq.
  - intros Heq. apply (is_fresh (dom h1)). rewrite Heq.
    unfold h1. rewrite dom_insert_L. set_solver.
Qed.

End Loop.

End Rewriters.

(** ** The rewriters leave the input store alone *)

Section Frame.
Import Rewriting.
Context {U : UrlApi}.
Implicit Types (h : heap) (l : loc).

Lemma entryWith_other target proxyPath recordMap pageId rewritten h entry l :
  l ≠ rewritten →
  entryWith target proxyPath recordMap pageId rewritten h entry !! l = h !! l.
Proof.
  intros Hne. unfold entryWith.
  destruct entry.2; try done.
  destruct (_ && _); by rewrite setProp_other.
Qed.

Lemma loop_other target proxyPath recordMap pageId rewritten es h l :
  l ≠ rewritten →
  foldl (entryWith target proxyPath recordMap pageId rewritten) h es !! l
  = h !! l.
Proof.
  intros Hne. revert h. induction es as [|e es IH]; intros h; [done |].
  simpl. by rewrite IH, entryWith_other.
Qed.

(** Every object of the input store is found again, as it was, in the
    output store. *)
Lemma rewriteWith_frame target proxyPath h recordMap pageId :
  h ⊆ (rewriteWith target proxyPath h recordMap pageId).1.
Proof.
  unfold rewriteWith. destruct (negb _); [done |].
  apply map_subseteq_spec. intros l o Hl. simpl.
  assert (Hfresh : l ≠ fresh (dom h)).
  { intros ->. apply (is_fresh (dom h)). by apply elem_of_dom_2 with o. }
  set (h2 := foldl _ _ _).
  assert (Hl2 : h2 !! l = Some o).
  { unfold h2. rewrite loop_other by done.
    simpl. by rewrite lookup_insert_ne. }
  rewrite lookup_insert_ne; [done |].
  intros <-. apply (is_fresh (dom h2)). by apply elem_of_dom_2 with o.
Qed.

End Frame.

Section RewriterClaims.
Import Rewriting.
Context {U : UrlApi}.
Implicit Types (h : heap) (l : loc).




End RewriterClaims.

Lemma example_store_closed : Store.closed Example.store.
Proof. refine (bool_decide_unpack _ _). vm_compute. exact I. Defined.


Section PassThrough.
Import Rewriting.
Context {U : UrlApi}.
Implicit Types (h : heap) (l : loc).


End PassThrough.



Section NoMutation.
Import Rewriting.
Context {U : UrlApi}.

(** C6: the rewriters write to no object of the input store (every
    location of the input store holds, after the call, the object it held
    before: the record map, its signed-URL mapping, its blocks), and a
    record map without a signed-URL mapping is returned as it is, on an
    unchanged store. *)
Theorem rewriters_do_not_mutate (h : heap) (recordMap : val)
    (pageId : string) :
  let pdfOut := RewritePdf.rewriteNotionPdfUrls h recordMap pageId in
  let fileOut := NotionApi.rewriteNotionFileUrls h recordMap pageId in
  (∀ l o, h !! l = Some o → pdfOut.1 !! l = Some o ∧ fileOut.1 !! l = Some o)
  ∧
  (Js.truthy (Js.get h recordMap "signed_urls") = false →
   pdfOut = (h, recordMap) ∧ fileOut = (h, recordMap)).
Proof.
  simpl.
  rewrite rewriteNotionPdfUrls_rewriteWith, rewriteNotionFileUrls_rewriteWith.
  split.
  - intros l o Hl. split.
    + exact (lookup_weaken _ _ _ _ Hl
               (rewriteWith_frame pdfTarget pdfPath h recordMap pageId)).
    + exact (lookup_weaken _ _ _ _ Hl
               (rewriteWith_frame fileTarget filePath h recordMap pageId)).
  - intros Hf. by rewrite !rewriteWith_falsy.
Qed.

End NoMutation.

(** On the example page, rewritten: the signed-URL mapping of the input is
    still the one it was; and the record map without [signed_urls] comes
    back as it is. *)
Lemma rewriters_do_not_mutate_witness :
  (let pdfOut :=
     @RewritePdf.rewriteNotionPdfUrls Whatwg.api
       Example.store Example.recordMap "page 1" in
   pdfOut.1 !! 3%positive = Example.store !! 3%positive)
  ∧
  @RewritePdf.rewriteNotionPdfUrls Whatwg.api
    Example.store Example.unsignedRecordMap "page 1"
  = (Example.store, Example.unsignedRecordMap)
  ∧
  @NotionApi.rewriteNotionFileUrls Whatwg.api
    Example.store Example.unsignedRecordMap "page 1"
  = (Example.store, Example.unsignedRecordMap).
Proof.
  split.
  - cbv zeta.
    destruct (@rewriters_do_not_mutate Whatwg.api
                Example.store Example.recordMap "page 1") as [Hkept _].
    destruct (Example.store !! 3%positive) as [o|] eqn:Ho.
    + exact (proj1 (Hkept 3%positive o Ho)).
    + vm_compute in Ho. discriminate Ho.
  - apply (proj2 (@rewriters_do_not_mutate Whatwg.api
                    Example.store Example.unsignedRecordMap "page 1")).
    reflexivity.
Defined.

(** ** Rewriting twice *)

Section Idempotence.
Import Rewriting.
Context {U : UrlApi}.
Implicit Types (h : heap) (l : loc) (o : object).

(** The platform's parser rejects a string that starts with [/]: without a
    base, a URL needs a scheme. *)
Hypothesis relative_rejected : ∀ s, URL_hostname (String "/" s) = None.

Lemma local_path_not_hosted (s : string) :
  RewritePdf.isNotionHostedUrl (String "/" s) = false.
Proof.
  unfold RewritePdf.isNotionHostedUrl. simpl.
  by rewrite relative_rejected.
Qed.

Lemma get_frame2 h v k l1 o1 l2 o2 :
  Store.valIn h v → l1 ∉ dom h → l2 ∉ dom (<[l1 := o1]> h) →
  Js.get (<[l2 := o2]> (<[l1 := o1]> h)) v k = Js.get h v k.
Proof.
  intros Hv H1 H2.
  rewrite get_frame by auto using valIn_insert. by apply get_frame.
Qed.

Section Generic.
Variables (target : val → bool) (proxyPath : string → string → string).
Hypothesis proxyPath_local :
  ∀ pageId blockId, ∃ s, proxyPath pageId blockId = String "/" s.

Lemma rewrittenMap_strings h recordMap pageId k w :
  rewrittenMap target proxyPath h recordMap pageId !! k = Some w →
  ∃ s, w = VString s.
Proof.
  unfold rewrittenMap. rewrite map_lookup_imap.
  destruct (_ !! k) as [v|]; simpl; [| done].
  unfold rewrittenValue. destruct v; try done.
  destruct (_ && _); intros [= <-]; eauto.
Qed.

(** A second pass keeps every entry of a rewritten mapping, provided it
    reads the same block types as the first. *)
Lemma rewrittenMap_fixed h recordMap pageId h' recordMap' :
  (∀ k, blockTypeOf h' recordMap' k = blockTypeOf h recordMap k) →
  map_imap (rewrittenValue target proxyPath h' recordMap' pageId)
    (rewrittenMap target proxyPath h recordMap pageId)
  = rewrittenMap target proxyPath h recordMap pageId.
Proof.
  intros Htypes. apply map_eq. intros k. rewrite map_lookup_imap.
  unfold rewrittenMap. rewrite map_lookup_imap.
  destruct (_ !! k) as [v|]; simpl; [| done].
  unfold rewrittenValue at 2. destruct v as [| | | |url|]; try done.
  simpl. unfold rewrittenValue. rewrite Htypes.
  destruct (target _ && RewritePdf.isNotionHostedUrl url) eqn:Hcond.
  - destruct (proxyPath_local pageId k) as [s ->].
    by rewrite local_path_not_hosted, andb_false_r.
  - by rewrite Hcond.
Qed.

Lemma rewriteWith_idempotent h recordMap pageId :
  Store.closed h →
  let out1 := rewriteWith target proxyPath h recordMap pageId in
  let out2 := rewriteWith target proxyPath out1.1 out1.2 pageId in
  out1.1 ⊆ out2.1 ∧ sameRecordMap out1.1 out1.2 out2.1 out2.2.
Proof.
  intros Hc. simpl. split; [apply rewriteWith_frame |].
  destruct (Js.truthy (Js.get h recordMap "signed_urls")) eqn:Ht.
  2:{ left. rewrite (rewriteWith_falsy _ _ h) by done. simpl.
      by rewrite rewriteWith_falsy. }
  right.
  destruct (truthy_get_object _ _ _ Ht) as (l & -> & Hl).
  apply elem_of_dom in Hl as [o Ho].
  rewrite (rewriteWith_spec _ _ h) by done. simpl.
  rewrite Ho. simpl.
  set (M := rewrittenMap target proxyPath h (VObject l) pageId).
  set (rewritten := fresh (dom h)).
  set (h1 := <[rewritten := M]> h).
  set (result := fresh (dom h1)).
  set (O := <["signed_urls" := VObject rewritten]> o).
  set (h2 := <[result := O]> h1).
  assert (Hrew : rewritten ∉ dom h) by apply is_fresh.
  assert (Hres : result ∉ dom h1) by apply is_fresh.
  assert (Hne : result ≠ rewritten).
  { intros Heq. apply Hres. rewrite Heq. unfold h1.
    rewrite dom_insert_L. set_solver. }
  assert (Hc1 : Store.closed h1).
  { apply closed_insert; [done |]. intros k w Hk.
    by destruct (rewrittenMap_strings _ _ _ _ _ Hk) as [s ->]. }
  assert (Hc2 : Store.closed h2).
  { apply closed_insert; [done |]. intros k w Hk.
    unfold O in Hk. apply lookup_insert_Some in Hk as [[_ <-] | [_ Hk]].
    - simpl. unfold h2, h1. rewrite !dom_insert_L. set_solver.
    - apply valIn_insert, valIn_insert. exact (Hc l o Ho k w Hk). }
  assert (Hsigned : Js.get h2 (VObject result) "signed_urls"
                    = VObject rewritten).
  { unfold Js.get, h2. simpl. rewrite lookup_insert_eq. simpl.
    unfold O. by rewrite lookup_insert_eq. }
  assert (Hprops : Js.props h2 (VObject result) = O).
  { unfold h2. simpl. by rewrite lookup_insert_eq. }
  assert (HM : h2 !! rewritten = Some M).
  { unfold h2, h1. rewrite lookup_insert_ne by done.
    by rewrite lookup_insert_eq. }
  assert (Htypes : ∀ k, blockTypeOf h2 (VObject result) k
                        = blockTypeOf h (VObject l) k).
  { intros k. unfold blockTypeOf.
    assert (Hblock : Js.get h2 (VObject result) "block"
                     = Js.get h (VObject l) "block").
    { unfold Js.get. rewrite Hprops. simpl. rewrite Ho. simpl.
      unfold O. by rewrite lookup_insert_ne. }
    rewrite Hblock. unfold h2, h1.
    rewrite (get_frame2 h (Js.get h (VObject l) "block"))
      by auto using get_valIn.
    rewrite (get_frame2 h (Js.get h _ k)) by auto using get_valIn.
    rewrite (get_frame2 h (Js.get h _ "value")) by auto using get_valIn.
    done. }
  assert (HM2 : rewrittenMap target proxyPath h2 (VObject result) pageId
                = M).
  { unfold rewrittenMap at 1. rewrite Hsigned. simpl. rewrite HM. simpl.
    by apply rewrittenMap_fixed. }
  rewrite (rewriteWith_spec _ _ h2) by (by rewrite ?Hsigned).
  cbv zeta. rewrite HM2, Hprops.
  set (rewritten2 := fresh (dom h2)).
  set (h3 := <[rewritten2 := M]> h2).
  set (result2 := fresh (dom h3)).
  assert (Hne2 : result2 ≠ rewritten2).
  { intros Heq. apply (is_fresh (dom h3)). fold result2. rewrite Heq.
    unfold h3. rewrite dom_insert_L. set_solver. }
  exists rewritten, rewritten2, M. cbn [fst snd].
  split; [done |]. split; [done |]. split.
  { change (default ∅ (h2 !! result)) with (Js.props h2 (VObject result)).
    rewrite Hprops. cbn [Js.props]. rewrite lookup_insert_eq.
    simpl. by rewrite delete_insert_eq. }
  split; [exact Hsigned |]. split.
  { unfold Js.get. cbn [Js.props]. rewrite lookup_insert_eq.
    simpl. by rewrite lookup_insert_eq. }
  split; [exact HM |].
  rewrite lookup_insert_ne by done.
  unfold h3. by rewrite lookup_insert_eq.
Qed.

End Generic.

(** C10: each rewriter, applied to its own output with the same page
    identifier, yields that output again: the store it was given is kept,
    and the record map it returns holds the same data, with the same
    signed-URL mapping.  Every rewritten entry is a local path, which the
    parser rejects, so the classifier refuses it and it is kept. *)
Theorem rewriters_idempotent h recordMap pageId :
  Store.closed h →
  let pdf1 := RewritePdf.rewriteNotionPdfUrls h recordMap pageId in
  let pdf2 := RewritePdf.rewriteNotionPdfUrls pdf1.1 pdf1.2 pageId in
  let file1 := NotionApi.rewriteNotionFileUrls h recordMap pageId in
  let file2 := NotionApi.rewriteNotionFileUrls file1.1 file1.2 pageId in
  (pdf1.1 ⊆ pdf2.1 ∧ sameRecordMap pdf1.1 pdf1.2 pdf2.1 pdf2.2)
  ∧ (file1.1 ⊆ file2.1 ∧ sameRecordMap file1.1 file1.2 file2.1 file2.2).
Proof.
  intros Hc. simpl.
  rewrite !rewriteNotionPdfUrls_rewriteWith.
  rewrite !rewriteNotionFileUrls_rewriteWith.
  split; apply rewriteWith_idempotent; try done.
  - intros p b. by eexists.
  - intros p b. by eexists.
Qed.

End Idempotence.

Lemma whatwg_relative_rejected (s : string) :
  Whatwg.hostname (String "/" s) = None.
Proof. reflexivity. Defined.

(** The example page, rewritten twice by the legacy rewriter. *)
Lemma rewriters_idempotent_witness :
  let pdf1 :=
    @RewritePdf.rewriteNotionPdfUrls Whatwg.api
      Example.store Example.recordMap "page 1" in
  let pdf2 :=
    @RewritePdf.rewriteNotionPdfUrls Whatwg.api pdf1.1 pdf1.2 "page 1" in
  pdf1.1 ⊆ pdf2.1 ∧ Rewriting.sameRecordMap pdf1.1 pdf1.2 pdf2.1 pdf2.2.
Proof.
  exact (proj1 (@rewriters_idempotent Whatwg.api whatwg_relative_rejected
                  Example.store Example.recordMap "page 1"
                  example_store_closed)).
Defined.

(** ** Reasoning about computations *)

Section IoFacts.
Import Http IoLogic.
Context {N : NotionClient} {F : FetchApi}.

Lemma bind_returned {A B} (m : io A) (k : A → io B) w a w' :
  m w = (Returned a, w') → (m ≫= k) w = k a w'.
Proof. intros Hm. unfold mbind, io_bind, bind. by rewrite Hm. Qed.

Lemma bind_thrown {A B} (m : io A) (k : A → io B) w e w' :
  m w = (Thrown e, w') → (m ≫= k) w = (Thrown e, w').
Proof. intros Hm. unfold mbind, io_bind, bind. by rewrite Hm. Qed.

Lemma bind_modify {B} (f : world → world) (k : unit → io B) w :
  (modify f ≫= k) w = k () (f w).
Proof. reflexivity. Qed.

Lemma tryCatch_returned {A} (m : io A) (handler : string → io A) w a w' :
  m w = (Returned a, w') → tryCatch m handler w = (Returned a, w').
Proof. intros Hm. unfold tryCatch. by rewrite Hm. Qed.

Lemma tryCatch_thrown {A} (m : io A) (handler : string → io A) w e w' :
  m w = (Thrown e, w') → tryCatch m handler w = handler e w'.
Proof. intros Hm. unfold tryCatch. by rewrite Hm. Qed.

Lemma getPage_answered pageId opts r w :
  getPageResult pageId opts = Some r →
  getPage pageId opts w = (Returned r, addCall (GetPage pageId opts) w).
Proof. intros Hr. unfold getPage, logCall. rewrite bind_modify. by rewrite Hr. Qed.

Lemma getPage_rejected pageId opts w :
  getPageResult pageId opts = None →
  getPage pageId opts w
  = (Thrown "getPage rejected", addCall (GetPage pageId opts) w).
Proof. intros Hr. unfold getPage, logCall. rewrite bind_modify. by rewrite Hr. Qed.

Lemma fetch_answered url meth hdrs r w :
  fetchResult url meth hdrs = Some r →
  fetch url meth hdrs w = (Returned r, addCall (Fetch url meth hdrs) w).
Proof. intros Hr. unfold fetch, logCall. rewrite bind_modify. by rewrite Hr. Qed.

Lemma fetch_rejected url meth hdrs w :
  fetchResult url meth hdrs = None →
  fetch url meth hdrs w
  = (Thrown "fetch rejected", addCall (Fetch url meth hdrs) w).
Proof. intros Hr. unfold fetch, logCall. rewrite bind_modify. by rewrite Hr. Qed.

(** *** Computations that always return *)

Lemma total_modify f : total (modify f).
Proof. intros w. by exists (). Qed.

Lemma total_bind {A B} (m : io A) (k : A → io B) :
  total m → (∀ a, total (k a)) → total (m ≫= k).
Proof.
  intros Hm Hk w. destruct (Hm w) as [a Ha].
  destruct (m w) as [o w'] eqn:Hw. simpl in Ha. subst o.
  rewrite (bind_returned _ _ _ _ _ Hw). apply Hk.
Qed.

Lemma total_tryCatch {A} (m : io A) (handler : string → io A) :
  (∀ e, total (handler e)) → total (tryCatch m handler).
Proof.
  intros Hh w. destruct (m w) as [[a|e] w'] eqn:Hw.
  - rewrite (tryCatch_returned _ _ _ _ _ Hw). by exists a.
  - rewrite (tryCatch_thrown _ _ _ _ _ Hw). apply Hh.
Qed.

(** *** Invariants of the world *)

Section Preserves.
Context (P : world → Prop).

Lemma preserves_ret {A} (a : A) : preserves P (ret a).
Proof. by intros w. Qed.

Lemma preserves_throw {A} e : preserves P (@throw A e).
Proof. by intros w. Qed.

Lemma preserves_modify f : (∀ w, P w → P (f w)) → preserves P (modify f).
Proof. intros Hf w. apply Hf. Qed.

Lemma preserves_bind {A B} (m : io A) (k : A → io B) :
  preserves P m → (∀ a, preserves P (k a)) → preserves P (m ≫= k).
Proof.
  intros Hm Hk w Hw. specialize (Hm w Hw).
  destruct (m w) as [[a|e] w'] eqn:Hmw.
  - rewrite (bind_returned _ _ _ _ _ Hmw). by apply Hk.
  - by rewrite (bind_thrown _ _ _ _ _ Hmw).
Qed.

Lemma preserves_tryCatch {A} (m : io A) (handler : string → io A) :
  preserves P m → (∀ e, preserves P (handler e)) →
  preserves P (tryCatch m handler).
Proof.
  intros Hm Hh w Hw. specialize (Hm w Hw).
  destruct (m w) as [[a|e] w'] eqn:Hmw.
  - by rewrite (tryCatch_returned _ _ _ _ _ Hmw).
  - rewrite (tryCatch_thrown _ _ _ _ _ Hmw). by apply Hh.
Qed.

Lemma preserves_getPage pageId opts :
  (∀ w, P w → P (addCall (GetPage pageId opts) w)) →
  preserves P (getPage pageId opts).
Proof.
  intros Hadd w Hw.
  destruct (getPageResult pageId opts) as [r|] eqn:Hr.
  - rewrite (getPage_answered _ _ _ _ Hr). by apply Hadd.
  - rewrite (getPage_rejected _ _ _ Hr). by apply Hadd.
Qed.

Lemma preserves_fetch url meth hdrs :
  (∀ w, P w → P (addCall (Fetch url meth hdrs) w)) →
  preserves P (fetch url meth hdrs).
Proof.
  intros Hadd w Hw.
  destruct (fetchResult url meth hdrs) as [r|] eqn:Hr.
  - rewrite (fetch_answered _ _ _ _ _ Hr). by apply Hadd.
  - rewrite (fetch_rejected _ _ _ _ Hr). by apply Hadd.
Qed.

Lemma preserves_forEach {A} (xs : list A) (f : A → io unit) :
  (∀ x, preserves P (f x)) → preserves P (AssetsPdf.forEach xs f).
Proof.
  intros Hf. induction xs as [|x xs IH]; simpl.
  - apply preserves_ret.
  - apply preserves_bind; [apply Hf | by intros _].
Qed.
End Preserves.

End IoFacts.

(** ** The redirect handler: requests it turns down *)

Section RedirectHandler.
Import Http.
Context {U : UrlApi} {N : NotionClient}.

(** C8: the redirect handler answers 405 to any method but GET, and
    answers 400 to a GET whose [blockId] or [pageId] is missing or is not
    a single string; in both cases nothing is asked of the upstream. *)
Theorem notionFile_rejects_bad_requests (req : request) :
  let w := (NotionFile.notionFileHandler req initial).2 in
  (method req ≠ Some "GET" →
     statusCode w = 405%Z ∧ sent w = [Json "Method not allowed"]
     ∧ calls w = [])
  ∧
  (method req = Some "GET" →
   Spec.missingOrNotString (query req !! "blockId")
   ∨ Spec.missingOrNotString (query req !! "pageId") →
     statusCode w = 400%Z
     ∧ (sent w = [Json "Missing blockId parameter"]
        ∨ sent w = [Json "Missing pageId parameter"])
     ∧ calls w = []).
Proof.
  simpl. unfold NotionFile.notionFileHandler. split.
  - intros Hm. by rewrite bool_decide_eq_false_2.
  - intros Hm Hq. rewrite bool_decide_eq_true_2 by done. simpl.
    destruct (requiredString (query req !! "blockId")) as [blockId|] eqn:Hb;
      [| by auto].
    destruct (requiredString (query req !! "pageId")) as [pageId|] eqn:Hp;
      [| by auto].
    exfalso. destruct Hq as [[Hq | [ss Hq]] | [Hq | [ss Hq]]];
      rewrite Hq in *; discriminate.
Qed.

End RedirectHandler.

(** A POST, and a GET without [pageId]. *)
Lemma notionFile_rejects_bad_requests_witness :
  (let w :=
     (@NotionFile.notionFileHandler Whatwg.api Example.publicNotion
        (Example.request "POST" Example.blockOfPage) Http.initial).2 in
   Http.statusCode w = 405%Z ∧ Http.calls w = [])
  ∧
  (let w :=
     (@NotionFile.notionFileHandler Whatwg.api Example.publicNotion
        (Example.request "GET" [("blockId", "b1")]) Http.initial).2 in
   Http.statusCode w = 400%Z ∧ Http.calls w = []).
Proof.
  split.
  - destruct (proj1 (@notionFile_rejects_bad_requests Whatwg.api
                       Example.publicNotion
                       (Example.request "POST" Example.blockOfPage)))
      as (Hstatus & _ & Hcalls); [discriminate | by split].
  - destruct (proj2 (@notionFile_rejects_bad_requests Whatwg.api
                       Example.publicNotion
                       (Example.request "GET" [("blockId", "b1")])))
      as (Hstatus & _ & Hcalls);
      [reflexivity | right; left; by vm_compute | by split].
Defined.

(** ** The redirect handler, path by path *)

Section NotionFileFacts.
Import Http IoLogic.
Context {U : UrlApi} {N : NotionClient}.

Lemma requestFor_required meth blockId pageId req :
  Spec.requestFor meth blockId pageId req →
  requiredString (query req !! "blockId") = Some blockId
  ∧ requiredString (query req !! "pageId") = Some pageId.
Proof.
  intros (_ & -> & -> & Hb & Hp). cbn [requiredString].
  apply String.eqb_neq in Hb, Hp. by rewrite Hb, Hp.
Qed.

Lemma notionFileHandler_valid req blockId pageId :
  Spec.requestFor "GET" blockId pageId req →
  NotionFile.notionFileHandler req
  = tryCatch (NotionFile.signedAttempt pageId blockId)
      (NotionFile.fallback pageId blockId).
Proof.
  intros Hreq. destruct (requestFor_required _ _ _ _ Hreq) as [Hb Hp].
  destruct Hreq as (Hm & _). unfold NotionFile.notionFileHandler.
  by rewrite bool_decide_eq_true_2, Hb, Hp.
Qed.

Lemma redirectToRaw_absent rawUrl w :
  Js.truthy rawUrl = false →
  NotionFile.redirectToRaw rawUrl w
  = (Returned (),
     finished (Json "File URL not found for block") (withStatus 404 w)).
Proof. intros Hf. unfold NotionFile.redirectToRaw. by rewrite Hf. Qed.

Lemma redirectToRaw_refused rawUrl w :
  Js.truthy rawUrl = true →
  NotionFile.isAllowedHost (Js.ToString rawUrl) = false →
  NotionFile.redirectToRaw rawUrl w
  = (Returned (),
     finished (Json "Unexpected redirect target") (withStatus 400 w)).
Proof.
  intros Ht Hr. unfold NotionFile.redirectToRaw. by rewrite Ht, Hr.
Qed.

Lemma redirectToRaw_accepted url w :
  url ≠ EmptyString →
  NotionFile.isAllowedHost url = true →
  NotionFile.redirectToRaw (VString url) w
  = (Returned (),
     finished (Redirected url) (withHeader "Location" url (withStatus 302 w))).
Proof.
  intros Hne%String.eqb_neq Ha. unfold NotionFile.redirectToRaw.
  cbn [Js.truthy Js.ToString]. by rewrite Hne, Ha.
Qed.

(** *** Upstream calls *)

Lemma silent_modify f : (∀ w, calls (f w) = calls w) → silent (modify f).
Proof. intros Hf w. apply Hf. Qed.

Lemma silent_json code error : silent (json code error).
Proof. by apply silent_modify. Qed.

Lemma silent_redirect code url : silent (redirect code url).
Proof. by destruct url. Qed.

Lemma silent_redirectToRaw rawUrl : silent (NotionFile.redirectToRaw rawUrl).
Proof.
  unfold NotionFile.redirectToRaw.
  destruct (negb _); [apply silent_json |].
  destruct (negb _); [apply silent_json | apply silent_redirect].
Qed.

Lemma unsignedAttempt_calls pageId blockId w :
  calls (NotionFile.unsignedAttempt pageId blockId w).2
  = (calls w ++ [GetPage pageId Spec.notSigning])%list.
Proof.
  unfold NotionFile.unsignedAttempt. fold Spec.notSigning.
  destruct (getPageResult pageId Spec.notSigning) as [[h recordMap]|] eqn:Hr.
  - rewrite (bind_returned _ _ _ _ _ (getPage_answered _ _ _ _ Hr)).
    by rewrite silent_redirectToRaw.
  - by rewrite (bind_thrown _ _ _ _ _ (getPage_rejected _ _ _ Hr)).
Qed.

(** The retry asks for the page once, and for nothing else. *)
Lemma fallback_calls pageId blockId err w :
  calls (NotionFile.fallback pageId blockId err w).2
  = (calls w ++ [GetPage pageId Spec.notSigning])%list.
Proof.
  unfold NotionFile.fallback, logConsole. rewrite bind_modify.
  pose proof (unsignedAttempt_calls pageId blockId (addLog
    (Warn "notion-file: signFileUrls failed (missing NOTION_TOKEN?), falling back to raw URL") w))
    as Hcalls.
  destruct (NotionFile.unsignedAttempt pageId blockId _)
    as [[[]|e] w2] eqn:Hrun; cbn [snd] in Hcalls.
  - by rewrite (tryCatch_returned _ _ _ _ _ Hrun).
  - by rewrite (tryCatch_thrown _ _ _ _ _ Hrun).
Qed.

(** No exception leaves the redirect handler, whatever the request and
    whatever the upstream does. *)
Lemma notionFile_never_throws (req : request) (w0 : world) :
  (NotionFile.notionFileHandler req w0).1 = Returned ().
Proof.
  assert (Htotal : total (NotionFile.notionFileHandler req)).
  { unfold NotionFile.notionFileHandler.
    destruct (negb _); [apply total_modify |].
    destruct (requiredString _); [| apply total_modify].
    destruct (requiredString _); [| apply total_modify].
    apply total_tryCatch. intros err.
    apply total_bind; [apply total_modify |]. intros _.
    apply total_tryCatch. intros fallbackErr.
    apply total_bind; [apply total_modify |]. intros _.
    apply total_modify. }
  destruct (Htotal w0) as [[] Hret]. exact Hret.
Qed.

(** C3: when the signed page fetch throws, the redirect handler fetches
    the page once more, with signing disabled, and nothing else; a raw
    source URL on an allowed host is answered by a 302 to it, no raw
    source URL by 404, a failed retry by 502; the handler returns
    normally. *)
Theorem notionFile_unsigned_fallback (req : request)
    (blockId pageId : string) :
  Spec.requestFor "GET" blockId pageId req →
  getPageResult pageId Spec.signing = None →
  let out := NotionFile.notionFileHandler req initial in
  out.1 = Returned ()
  ∧ calls out.2 = [GetPage pageId Spec.signing; GetPage pageId Spec.notSigning]
  ∧ (∀ h recordMap url,
       getPageResult pageId Spec.notSigning = Some (h, recordMap) →
       NotionFile.rawSource h recordMap blockId = VString url →
       url ≠ EmptyString →
       NotionFile.isAllowedHost url = true →
       statusCode out.2 = 302%Z ∧ sent out.2 = [Redirected url])
  ∧ (∀ h recordMap,
       getPageResult pageId Spec.notSigning = Some (h, recordMap) →
       Js.truthy (NotionFile.rawSource h recordMap blockId) = false →
       statusCode out.2 = 404%Z
       ∧ sent out.2 = [Json "File URL not found for block"])
  ∧ (getPageResult pageId Spec.notSigning = None →
       statusCode out.2 = 502%Z
       ∧ sent out.2 = [Json "Failed to fetch signed URL"]).
Proof.
  intros Hreq Hsigned. cbv zeta.
  split; [apply notionFile_never_throws |].
  rewrite (notionFileHandler_valid _ _ _ Hreq).
  assert (Hfirst : NotionFile.signedAttempt pageId blockId initial
                   = (Thrown "getPage rejected",
                      addCall (GetPage pageId Spec.signing) initial)).
  { unfold NotionFile.signedAttempt. fold Spec.signing.
    exact (bind_thrown _ _ _ _ _ (getPage_rejected _ _ _ Hsigned)). }
  rewrite (tryCatch_thrown _ _ _ _ _ Hfirst).
  split; [by rewrite fallback_calls |].
  unfold NotionFile.fallback, logConsole. rewrite bind_modify.
  set (w1 := addLog _ _).
  unfold NotionFile.unsignedAttempt. fold Spec.notSigning.
  split; [| split].
  - intros h recordMap url Hr Hraw Hne Hallowed.
    erewrite tryCatch_returned;
      [| rewrite (bind_returned _ _ _ _ _ (getPage_answered _ _ _ _ Hr));
         rewrite Hraw; by apply redirectToRaw_accepted].
    done.
  - intros h recordMap Hr Hfalsy.
    erewrite tryCatch_returned;
      [| rewrite (bind_returned _ _ _ _ _ (getPage_answered _ _ _ _ Hr));
         by apply redirectToRaw_absent].
    done.
  - intros Hr.
    erewrite tryCatch_thrown;
      [| exact (bind_thrown _ _ _ _ _ (getPage_rejected _ _ _ Hr))].
    done.
Qed.

End NotionFileFacts.

Lemma example_request_for (meth : string) :
  Spec.requestFor meth "b1" "page 1" (Example.request meth Example.blockOfPage).
Proof. repeat split; done. Defined.

(** A private workspace: the signed fetch throws, the retry finds the raw
    source URL of the [pdf] block. *)
Lemma notionFile_unsigned_fallback_witness :
  let out :=
    @NotionFile.notionFileHandler Whatwg.api Example.privateNotion
      (Example.request "GET" Example.blockOfPage) Http.initial in
  Http.calls out.2
  = [Http.GetPage "page 1" Spec.signing; Http.GetPage "page 1" Spec.notSigning]
  ∧ Http.statusCode out.2 = 302%Z
  ∧ Http.sent out.2 = [Http.Redirected "https://s3.amazonaws.com/raw"].
Proof.
  destruct (@notionFile_unsigned_fallback Whatwg.api Example.privateNotion
              (Example.request "GET" Example.blockOfPage) "b1" "page 1"
              (example_request_for "GET") eq_refl)
    as (_ & Hcalls & Hfound & _).
  split; [exact Hcalls |].
  apply (Hfound Example.store Example.unsignedRecordMap
           "https://s3.amazonaws.com/raw"); [reflexivity | | done |];
    vm_compute; reflexivity.
Defined.

(** ** The allow-list gate *)

Section RedirectGate.
Import Http IoLogic.
Context {U : UrlApi} {N : NotionClient}.

Abbreviation accepted := (redirectsAccepted NotionFile.isAllowedHost).

Lemma accepted_same_sent (f : world → world) :
  (∀ w, sent (f w) = sent w) → preserves accepted (modify f).
Proof.
  intros Hf. apply preserves_modify. intros w Hw url. rewrite Hf. apply Hw.
Qed.

Lemma accepted_json code error : preserves accepted (json code error).
Proof.
  apply preserves_modify.
  intros w Hw url [Hin | Hin%list_elem_of_singleton]%elem_of_app;
    [by apply Hw | discriminate].
Qed.

Lemma accepted_redirect code url :
  NotionFile.isAllowedHost (Js.ToString url) = true →
  preserves accepted (redirect code url).
Proof.
  intros Ha. destruct url; try apply preserves_throw.
  apply preserves_modify.
  intros w Hw url [Hin | Hin%list_elem_of_singleton]%elem_of_app;
    [by apply Hw | by injection Hin as <-].
Qed.

Lemma accepted_redirectToRaw rawUrl :
  preserves accepted (NotionFile.redirectToRaw rawUrl).
Proof.
  unfold NotionFile.redirectToRaw.
  destruct (negb (Js.truthy rawUrl)); [apply accepted_json |].
  destruct (NotionFile.isAllowedHost (Js.ToString rawUrl)) eqn:Ha;
    [by apply accepted_redirect | apply accepted_json].
Qed.

Lemma accepted_getPage pageId opts : preserves accepted (getPage pageId opts).
Proof. apply preserves_getPage. intros w Hw url. apply Hw. Qed.

(** The redirect handler never answers with a redirect to a URL the
    classifier refuses. *)
Lemma notionFile_redirects_accepted req :
  preserves accepted (NotionFile.notionFileHandler req).
Proof.
  unfold NotionFile.notionFileHandler.
  destruct (negb _); [apply accepted_json |].
  destruct (requiredString _) as [blockId|]; [| apply accepted_json].
  destruct (requiredString _) as [pageId|]; [| apply accepted_json].
  apply preserves_tryCatch.
  - apply preserves_bind; [apply accepted_getPage |].
    intros [h recordMap]. cbv beta iota zeta.
    destruct (Js.truthy _); [| apply accepted_redirectToRaw].
    destruct (NotionFile.isAllowedHost _) eqn:Ha; [| apply accepted_json].
    apply preserves_bind; [by apply accepted_same_sent |].
    intros _. by apply accepted_redirect.
  - intros err. apply preserves_bind; [by apply accepted_same_sent |].
    intros _. apply preserves_tryCatch.
    + apply preserves_bind; [apply accepted_getPage |].
      intros [h recordMap]. apply accepted_redirectToRaw.
    + intros fallbackErr.
      apply preserves_bind; [by apply accepted_same_sent |].
      intros _. apply accepted_json.
Qed.

(** It makes no [fetch] at all. *)
Lemma notionFile_no_fetch req (w : world) :
  noFetch w → noFetch (NotionFile.notionFileHandler req w).2.
Proof.
  assert (Hkeep : ∀ f : world → world,
            (∀ w, calls (f w) = calls w) → preserves noFetch (modify f)).
  { intros f Hf. apply preserves_modify.
    intros w' Hw' url meth hdrs. rewrite Hf. apply Hw'. }
  assert (Hpage : ∀ pageId opts, preserves noFetch (getPage pageId opts)).
  { intros pageId opts. apply preserves_getPage.
    intros w' Hw' url meth hdrs [Hin | Hin%list_elem_of_singleton]
      %elem_of_app; [by apply Hw' in Hin | done]. }
  assert (Hraw : ∀ rawUrl, preserves noFetch (NotionFile.redirectToRaw rawUrl)).
  { intros rawUrl. unfold NotionFile.redirectToRaw.
    destruct (negb _); [by apply Hkeep |].
    destruct (negb _); [by apply Hkeep |].
    destruct rawUrl; try apply preserves_throw. by apply Hkeep. }
  revert w. change (preserves noFetch (NotionFile.notionFileHandler req)).
  unfold NotionFile.notionFileHandler.
  destruct (negb _); [by apply Hkeep |].
  destruct (requiredString _) as [blockId|]; [| by apply Hkeep].
  destruct (requiredString _) as [pageId|]; [| by apply Hkeep].
  apply preserves_tryCatch.
  - apply preserves_bind; [apply Hpage |].
    intros [h recordMap]. cbv beta iota zeta.
    destruct (Js.truthy _); [| apply Hraw].
    destruct (negb _); [by apply Hkeep |].
    apply preserves_bind; [by apply Hkeep |].
    intros _. destruct (Js.get _ _ _); try apply preserves_throw.
    by apply Hkeep.
  - intros err. apply preserves_bind; [by apply Hkeep |].
    intros _. apply preserves_tryCatch.
    + apply preserves_bind; [apply Hpage |].
      intros [h recordMap]. apply Hraw.
    + intros fallbackErr. apply preserves_bind; [by apply Hkeep |].
      intros _. by apply Hkeep.
Qed.

(** When the URL it settled on is refused, it answers 400, and that is all
    it sends. *)
Lemma notionFile_refuses req blockId pageId target :
  Spec.requestFor "GET" blockId pageId req →
  Spec.redirectTarget pageId blockId = Some target →
  NotionFile.isAllowedHost (Js.ToString target) = false →
  ∃ w, NotionFile.notionFileHandler req initial
       = (Returned (),
          finished (Json "Unexpected redirect target") (withStatus 400 w))
       ∧ sent w = [].
Proof.
  intros Hreq Htarget Hrefused.
  rewrite (notionFileHandler_valid _ _ _ Hreq).
  unfold Spec.redirectTarget in Htarget.
  destruct (getPageResult pageId Spec.signing) as [[h recordMap]|] eqn:Hs.
  - exists (addCall (GetPage pageId Spec.signing) initial).
    split; [| done]. apply tryCatch_returned.
    unfold NotionFile.signedAttempt. fold Spec.signing.
    rewrite (bind_returned _ _ _ _ _ (getPage_answered _ _ _ _ Hs)).
    destruct (Js.truthy (Js.get h _ blockId)) eqn:Hfresh.
    + injection Htarget as <-. by rewrite Hrefused.
    + destruct (Js.truthy (NotionFile.rawSource h recordMap blockId))
        eqn:Hraw; [| done].
      injection Htarget as <-. by apply redirectToRaw_refused.
  - destruct (getPageResult pageId Spec.notSigning)
      as [[h recordMap]|] eqn:Hu; [| done].
    destruct (Js.truthy (NotionFile.rawSource h recordMap blockId))
      eqn:Hraw; [| done].
    injection Htarget as <-.
    eexists. split.
    + erewrite tryCatch_thrown;
        [| unfold NotionFile.signedAttempt; fold Spec.signing;
           exact (bind_thrown _ _ _ _ _ (getPage_rejected _ _ _ Hs))].
      unfold NotionFile.fallback, logConsole. rewrite bind_modify.
      apply tryCatch_returned.
      unfold NotionFile.unsignedAttempt. fold Spec.notSigning.
      rewrite (bind_returned _ _ _ _ _ (getPage_answered _ _ _ _ Hu)).
      by apply redirectToRaw_refused.
    + done.
Qed.

End RedirectGate.

(** ** The streaming proxy, path by path *)

Section AssetsPdfFacts.
Import Http IoLogic.
Context {U : UrlApi} {N : NotionClient} {F : FetchApi}.

Lemma resolveSigned_answered pageId blockId h recordMap w :
  getPageResult pageId Spec.signing = Some (h, recordMap) →
  AssetsPdf.resolveSigned pageId blockId w
  = (Returned
       match Js.get h (Js.get h recordMap "signed_urls") blockId with
       | VString url => Some url
       | _ =>
           match AssetsPdf.getRawSourceUrl h recordMap blockId with
           | Some fallbackUrl =>
               if String.eqb fallbackUrl EmptyString then None
               else Some fallbackUrl
           | None => None
           end
       end,
     addCall (GetPage pageId Spec.signing) w).
Proof.
  intros Hs. unfold AssetsPdf.resolveSigned. fold Spec.signing.
  apply tryCatch_returned.
  rewrite (bind_returned _ _ _ _ _ (getPage_answered _ _ _ _ Hs)).
  cbv beta iota zeta.
  destruct (Js.get h _ blockId); try done;
    destruct (AssetsPdf.getRawSourceUrl h recordMap blockId) as [u|];
    try done; by destruct (String.eqb u EmptyString).
Qed.

Lemma resolveSigned_rejected pageId blockId w :
  getPageResult pageId Spec.signing = None →
  AssetsPdf.resolveSigned pageId blockId w
  = (Returned None, addCall (GetPage pageId Spec.signing) w).
Proof.
  intros Hs. unfold AssetsPdf.resolveSigned. fold Spec.signing.
  erewrite tryCatch_thrown;
    [| exact (bind_thrown _ _ _ _ _ (getPage_rejected _ _ _ Hs))].
  reflexivity.
Qed.


(** The unsigned retry, from the world the signed attempt left. *)
Lemma resolvePdfUrl_retry pageId blockId w w1 :
  AssetsPdf.resolveSigned pageId blockId w = (Returned None, w1) →
  AssetsPdf.resolvePdfUrl pageId blockId w
  = match getPageResult pageId Spec.notSigning with
    | Some (h, fallbackMap) =>
        match AssetsPdf.getRawSourceUrl h fallbackMap blockId with
        | Some fallbackUrl =>
            if String.eqb fallbackUrl EmptyString
            then (Thrown "File URL not found for block",
                  addCall (GetPage pageId Spec.notSigning) w1)
            else (Returned fallbackUrl,
                  addCall (GetPage pageId Spec.notSigning) w1)
        | None => (Thrown "File URL not found for block",
                   addCall (GetPage pageId Spec.notSigning) w1)
        end
    | None => (Thrown "getPage rejected",
               addCall (GetPage pageId Spec.notSigning) w1)
    end.
Proof.
  intros Hfirst. unfold AssetsPdf.resolvePdfUrl.
  rewrite (bind_returned _ _ _ _ _ Hfirst). fold Spec.notSigning.
  destruct (getPageResult pageId Spec.notSigning) as [[h fallbackMap]|] eqn:Hu.
  - rewrite (bind_returned _ _ _ _ _ (getPage_answered _ _ _ _ Hu)).
    cbv beta iota zeta.
    destruct (AssetsPdf.getRawSourceUrl h fallbackMap blockId) as [u|];
      [by destruct (String.eqb u EmptyString) | done].
  - exact (bind_thrown _ _ _ _ _ (getPage_rejected _ _ _ Hu)).
Qed.

Lemma assetsPdfHandler_valid req meth blockId pageId :
  meth = "GET" ∨ meth = "HEAD" →
  Spec.requestFor meth blockId pageId req →
  AssetsPdf.assetsPdfHandler req
  = tryCatch (AssetsPdf.proxy req pageId blockId)
      (λ err,
         logConsole (Error "assets-pdf proxy failed");;
         json 502 "Failed to proxy PDF").
Proof.
  intros Hmeth Hreq. destruct (requestFor_required _ _ _ _ Hreq) as [Hb Hp].
  destruct Hreq as (Hm & _). unfold AssetsPdf.assetsPdfHandler.
  rewrite Hb, Hp.
  destruct Hmeth as [-> | ->].
  - by rewrite (bool_decide_eq_true_2 (method req = Some "GET")).
  - rewrite (bool_decide_eq_true_2 (method req = Some "HEAD")) by done.
    by rewrite andb_false_r.
Qed.

(** Properties of the world that asking for a page does not disturb are
    kept by the resolution; those that depend on the calls alone are kept
    by the relay of the upstream response. *)
Section Stable.
Context (P : world → Prop).
Hypothesis P_calls : ∀ w w', calls w' = calls w → P w → P w'.
Hypothesis P_page : ∀ w pageId opts, P w → P (addCall (GetPage pageId opts) w).

Lemma stable_modify f :
  (∀ w, calls (f w) = calls w) → preserves P (modify f).
Proof. intros Hf. apply preserves_modify. intros w. by apply P_calls. Qed.

Lemma stable_getPage pageId opts : preserves P (getPage pageId opts).
Proof. apply preserves_getPage. intros w. apply P_page. Qed.

Lemma stable_resolvePdfUrl pageId blockId :
  preserves P (AssetsPdf.resolvePdfUrl pageId blockId).
Proof.
  unfold AssetsPdf.resolvePdfUrl, AssetsPdf.resolveSigned.
  apply preserves_bind.
  - apply preserves_tryCatch; [| intros _; apply preserves_ret].
    apply preserves_bind; [apply stable_getPage |].
    intros [h recordMap]. cbv beta iota zeta.
    destruct (Js.get h _ blockId); try apply preserves_ret;
      destruct (AssetsPdf.getRawSourceUrl h recordMap blockId) as [u|];
      try apply preserves_ret;
      destruct (String.eqb u EmptyString); apply preserves_ret.
  - intros [url|]; [apply preserves_ret |].
    apply preserves_bind; [apply stable_getPage |].
    intros [h fallbackMap]. cbv beta iota zeta.
    destruct (AssetsPdf.getRawSourceUrl h fallbackMap blockId) as [u|];
      [| apply preserves_throw].
    destruct (String.eqb u EmptyString);
      [apply preserves_throw | apply preserves_ret].
Qed.

Lemma stable_relay req upstreamRes :
  preserves P (AssetsPdf.relay req upstreamRes).
Proof.
  unfold AssetsPdf.relay.
  apply preserves_bind; [by apply stable_modify |]. intros _.
  apply preserves_bind.
  { apply preserves_forEach. intros header.
    destruct (responseHeaders upstreamRes !! header) as [value|];
      [| apply preserves_ret].
    destruct (String.eqb value EmptyString);
      [apply preserves_ret | by apply stable_modify]. }
  intros _. apply preserves_bind; [by intros w |].
  intros cacheControl. apply preserves_bind.
  { destruct cacheControl as [v|]; [| by apply stable_modify].
    destruct (String.eqb v EmptyString);
      [by apply stable_modify | apply preserves_ret]. }
  intros _. destruct (bool_decide _); [by apply stable_modify |].
  destruct (body upstreamRes); by apply stable_modify.
Qed.
End Stable.

Lemma noFetch_initial : noFetch initial.
Proof. intros url meth hdrs Hin. by apply not_elem_of_nil in Hin. Qed.

Lemma noFetch_page w pageId opts :
  noFetch w → noFetch (addCall (GetPage pageId opts) w).
Proof.
  intros Hw url meth hdrs [Hin | Hin%list_elem_of_singleton]%elem_of_app;
    [by apply Hw in Hin | done].
Qed.

(** While it resolves the URL, the proxy sends nothing and fetches
    nothing. *)
Lemma resolvePdfUrl_quiet pageId blockId r w :
  AssetsPdf.resolvePdfUrl pageId blockId initial = (r, w) →
  sent w = [] ∧ noFetch w.
Proof.
  intros Hout. split.
  - pose proof (stable_resolvePdfUrl (λ w, sent w = [])
                  (λ _ _ _ Hw, Hw) pageId blockId initial eq_refl) as Hs.
    by rewrite Hout in Hs.
  - pose proof (stable_resolvePdfUrl noFetch noFetch_page
                  pageId blockId initial noFetch_initial) as Hno.
    by rewrite Hout in Hno.
Qed.



End AssetsPdfFacts.

Section ProxyGate.
Import Http IoLogic.
Context {U : UrlApi} {N : NotionClient} {F : FetchApi}.

Abbreviation accepted := (fetchesAccepted AssetsPdf.isAllowedHost).

Lemma accepted_calls w w' : calls w' = calls w → accepted w → accepted w'.
Proof. intros Heq Hw url meth hdrs. rewrite Heq. apply Hw. Qed.

Lemma accepted_page w pageId opts :
  accepted w → accepted (addCall (GetPage pageId opts) w).
Proof.
  intros Hw url meth hdrs [Hin | Hin%list_elem_of_singleton]%elem_of_app;
    [by apply Hw in Hin | done].
Qed.

(** The streaming proxy fetches no URL the classifier refuses. *)
Lemma assetsPdf_fetches_accepted req :
  preserves accepted (AssetsPdf.assetsPdfHandler req).
Proof.
  pose proof accepted_calls as Hc. pose proof accepted_page as Hp.
  unfold AssetsPdf.assetsPdfHandler.
  destruct (_ && _); [by apply stable_modify |].
  destruct (requiredString _) as [blockId|]; [| by apply stable_modify].
  destruct (requiredString _) as [pageId|]; [| by apply stable_modify].
  apply preserves_tryCatch.
  - apply preserves_bind; [by apply stable_resolvePdfUrl |].
    intros upstreamUrl.
    destruct (AssetsPdf.isAllowedHost upstreamUrl) eqn:Ha;
      [| by apply stable_modify].
    apply preserves_bind; [| intros r; by apply stable_relay].
    apply preserves_fetch.
    intros w Hw url meth hdrs [Hin | Hin%list_elem_of_singleton]%elem_of_app;
      [by apply Hw in Hin | by injection Hin as -> _ _].
  - intros err. apply preserves_bind; [| intros _]; by apply stable_modify.
Qed.

(** When the URL it resolved is refused, it answers 400 and has fetched
    nothing. *)
Lemma assetsPdf_refuses req meth blockId pageId url w :
  meth = "GET" ∨ meth = "HEAD" →
  Spec.requestFor meth blockId pageId req →
  AssetsPdf.resolvePdfUrl pageId blockId initial = (Returned url, w) →
  AssetsPdf.isAllowedHost url = false →
  let out := AssetsPdf.assetsPdfHandler req initial in
  statusCode out.2 = 400%Z
  ∧ sent out.2 = [Json "Unexpected file host"]
  ∧ noFetch out.2.
Proof.
  intros Hmeth Hreq Hout Hrefused. cbv zeta.
  destruct (resolvePdfUrl_quiet _ _ _ _ Hout) as [Hsent Hno].
  rewrite (assetsPdfHandler_valid _ _ _ _ Hmeth Hreq).
  erewrite tryCatch_returned;
    [| unfold AssetsPdf.proxy; rewrite (bind_returned _ _ _ _ _ Hout);
       by rewrite Hrefused].
  cbn. by rewrite Hsent.
Qed.

End ProxyGate.

Section Gate.
Import Http IoLogic.
Context {U : UrlApi} {N : NotionClient} {F : FetchApi}.

(** C2: both handlers put the URL they resolved through the host
    allow-list before using it.  The redirect handler never redirects to
    a refused URL and fetches nothing; when the URL it settled on is
    refused it answers 400.  The streaming proxy never fetches a refused
    URL; when the URL it resolved is refused it answers 400, having
    fetched nothing. *)
Theorem resolved_url_checked_before_use (req : request) :
  let redirected := NotionFile.notionFileHandler req initial in
  let streamed := AssetsPdf.assetsPdfHandler req initial in
  redirectsAccepted NotionFile.isAllowedHost redirected.2
  ∧ noFetch redirected.2
  ∧ fetchesAccepted AssetsPdf.isAllowedHost streamed.2
  ∧ (∀ blockId pageId target,
       Spec.requestFor "GET" blockId pageId req →
       Spec.redirectTarget pageId blockId = Some target →
       NotionFile.isAllowedHost (Js.ToString target) = false →
       statusCode redirected.2 = 400%Z
       ∧ sent redirected.2 = [Json "Unexpected redirect target"])
  ∧ (∀ meth blockId pageId url w,
       meth = "GET" ∨ meth = "HEAD" →
       Spec.requestFor meth blockId pageId req →
       AssetsPdf.resolvePdfUrl pageId blockId initial = (Returned url, w) →
       AssetsPdf.isAllowedHost url = false →
       statusCode streamed.2 = 400%Z
       ∧ sent streamed.2 = [Json "Unexpected file host"]
       ∧ noFetch streamed.2).
Proof.
  cbv zeta. repeat apply conj.
  - apply notionFile_redirects_accepted.
    intros url Hin. by apply not_elem_of_nil in Hin.
  - apply notionFile_no_fetch, noFetch_initial.
  - apply assetsPdf_fetches_accepted.
    intros url meth hdrs Hin. by apply not_elem_of_nil in Hin.
  - intros blockId pageId target Hreq Htarget Hrefused.
    destruct (notionFile_refuses _ _ _ _ Hreq Htarget Hrefused)
      as (w & -> & Hsent).
    cbn. by rewrite Hsent.
  - intros meth blockId pageId url w Hmeth Hreq Hout Hrefused.
    exact (assetsPdf_refuses _ _ _ _ _ _ Hmeth Hreq Hout Hrefused).
Qed.

End Gate.

(** The entry signed for [example.com] is answered by 400; the [pdf] block
    is redirected to a host of the allow-list. *)
Lemma resolved_url_checked_before_use_witness :
  (let refused :=
     @NotionFile.notionFileHandler Whatwg.api Example.publicNotion
       (Example.request "GET" Example.foreignBlockOfPage) Http.initial in
   Http.statusCode refused.2 = 400%Z
   ∧ Http.sent refused.2 = [Http.Json "Unexpected redirect target"])
  ∧
  (let redirected :=
     @NotionFile.notionFileHandler Whatwg.api Example.publicNotion
       (Example.request "GET" Example.blockOfPage) Http.initial in
   Http.sent redirected.2 = [Http.Redirected "https://s3.amazonaws.com/x"]
   ∧ @NotionFile.isAllowedHost Whatwg.api "https://s3.amazonaws.com/x" = true).
Proof.
  split.
  - destruct (@resolved_url_checked_before_use Whatwg.api Example.publicNotion
                Example.storage
                (Example.request "GET" Example.foreignBlockOfPage))
      as (_ & _ & _ & Hrefused & _).
    apply (Hrefused "b4" "page 1" (VString "https://example.com/z"));
      [repeat split; done | |]; vm_compute; reflexivity.
  - destruct (@resolved_url_checked_before_use Whatwg.api Example.publicNotion
                Example.storage
                (Example.request "GET" Example.blockOfPage))
      as (Haccepted & _).
    assert (Hsent :
      Http.sent
        (@NotionFile.notionFileHandler Whatwg.api Example.publicNotion
           (Example.request "GET" Example.blockOfPage) Http.initial).2
      = [Http.Redirected "https://s3.amazonaws.com/x"])
      by (vm_compute; reflexivity).
    split; [exact Hsent |].
    apply Haccepted. rewrite Hsent. apply list_elem_of_singleton. reflexivity.
Defined.


(** * Further properties *)

(** ** The classifiers *)

Section ClassifierFacts.
Context {U : UrlApi}.

(** X1: the handlers' classifier, in both copies, answers true exactly on
    the strings that parse as a URL whose hostname is an allow-listed
    domain or a subdomain of one, whatever the parser; a string that does
    not parse is refused. *)
Theorem isAllowedHost_exact (url : string) :
  (NotionFile.isAllowedHost url = true ↔
   ∃ hostname, URL_hostname url = Some hostname ∧ Spec.allowListed hostname)
  ∧ (AssetsPdf.isAllowedHost url = true ↔
     ∃ hostname, URL_hostname url = Some hostname ∧ Spec.allowListed hostname)
  ∧ (URL_hostname url = None →
     NotionFile.isAllowedHost url = false
     ∧ AssetsPdf.isAllowedHost url = false).
Proof.
  split; [apply notionFile_isAllowedHost_spec |].
  split; [apply assetsPdf_isAllowedHost_spec |].
  intros Hnone. unfold AssetsPdf.isAllowedHost, NotionFile.isAllowedHost.
  by rewrite Hnone.
Qed.

Lemma allowed_is_hosted (url : string) :
  url ≠ EmptyString →
  NotionFile.isAllowedHost url = true →
  RewritePdf.isNotionHostedUrl url = true.
Proof.
  intros Hne%String.eqb_neq.
  unfold NotionFile.isAllowedHost, RewritePdf.isNotionHostedUrl.
  rewrite Hne. destruct (URL_hostname url) as [hostname|]; [| done].
  change NotionFile.ALLOWED_HOSTS with Spec.allowedDomains.
  intros (d & Hd & Hh)%allowListed_iff. rewrite !orb_true_iff.
  apply list_elem_of_In in Hd. simpl in Hd.
  destruct Hd as [<- | [<- | []]]; destruct Hh as [-> | [sub ->]].
  - left; left. reflexivity.
  - left; left. apply endsWith_spec. exists (sub +:+ ".").
    by rewrite append_assoc.
  - left; right. reflexivity.
  - right. apply endsWith_spec. by exists sub.
Qed.

(** X2: a non-empty URL the handlers' classifier accepts is accepted by
    the rewriters' classifier too: whatever the handlers would serve, the
    rewriters route through the proxy. *)
Theorem isAllowedHost_implies_hosted (url : string) :
  url ≠ EmptyString →
  NotionFile.isAllowedHost url = true →
  RewritePdf.isNotionHostedUrl url = true
  ∧ NotionApi.isNotionHostedUrl url = true.
Proof.
  intros Hne Hallowed.
  pose proof (allowed_is_hosted url Hne Hallowed) as Hhosted.
  split; [exact Hhosted |]. by rewrite isNotionHostedUrl_same.
Qed.

(** X3: on a non-empty string the two classifiers give different answers
    only when the hostname ends with the letters [amazonaws.com] without
    being on the allow-list; then it is the rewriters' classifier that
    accepts. *)
Theorem classifiers_differ_only_on_lookalikes (url : string) :
  url ≠ EmptyString →
  RewritePdf.isNotionHostedUrl url ≠ NotionFile.isAllowedHost url →
  RewritePdf.isNotionHostedUrl url = true
  ∧ ∃ hostname pre,
      URL_hostname url = Some hostname
      ∧ hostname = pre +:+ "amazonaws.com"
      ∧ ¬ Spec.allowListed hostname.
Proof.
  intros Hne Hdiff.
  destruct (NotionFile.isAllowedHost url) eqn:Ha.
  { by rewrite (allowed_is_hosted url Hne Ha) in Hdiff. }
  destruct (RewritePdf.isNotionHostedUrl url) eqn:Hn; [| done].
  split; [done |].
  assert (Hnot : ¬ ∃ hostname,
             URL_hostname url = Some hostname ∧ Spec.allowListed hostname).
  { rewrite <- (notionFile_isAllowedHost_spec url). by rewrite Ha. }
  unfold RewritePdf.isNotionHostedUrl in Hn.
  destruct (String.eqb url EmptyString); [done |].
  destruct (URL_hostname url) as [hostname|] eqn:Hhost; [| done].
  assert (Hno : ¬ Spec.allowListed hostname).
  { intros Hyes. apply Hnot. by exists hostname. }
  rewrite !orb_true_iff in Hn.
  destruct Hn as [[Hsuf | Heq] | Hdot].
  - apply endsWith_spec in Hsuf as [pre ->].
    by exists (pre +:+ "amazonaws.com"), pre.
  - apply String.eqb_eq in Heq.
    exfalso. apply Hno. exists "notion.so".
    split; [apply list_elem_of_In; right; by left | by left].
  - apply endsWith_spec in Hdot.
    exfalso. apply Hno. exists "notion.so".
    split; [apply list_elem_of_In; right; by left | right; exact Hdot].
Qed.

End ClassifierFacts.

Lemma isAllowedHost_implies_hosted_witness :
  @RewritePdf.isNotionHostedUrl Whatwg.api
    "https://files.notion.so/f/a.pdf" = true
  ∧ @NotionApi.isNotionHostedUrl Whatwg.api
      "https://files.notion.so/f/a.pdf" = true.
Proof.
  apply (@isAllowedHost_implies_hosted Whatwg.api
           "https://files.notion.so/f/a.pdf"); [discriminate | reflexivity].
Defined.

(** A local path is no URL: both copies refuse it. *)
Lemma isAllowedHost_exact_witness :
  @NotionFile.isAllowedHost Whatwg.api "/assets-pdf/p/b" = false
  ∧ @AssetsPdf.isAllowedHost Whatwg.api "/assets-pdf/p/b" = false.
Proof.
  apply (proj2 (proj2 (@isAllowedHost_exact Whatwg.api "/assets-pdf/p/b"))).
  reflexivity.
Defined.

Lemma classifiers_differ_only_on_lookalikes_witness :
  @RewritePdf.isNotionHostedUrl Whatwg.api "https://evilamazonaws.com/x" = true
  ∧ ∃ hostname pre,
      Whatwg.hostname "https://evilamazonaws.com/x" = Some hostname
      ∧ hostname = pre +:+ "amazonaws.com"
      ∧ ¬ Spec.allowListed hostname.
Proof.
  apply (@classifiers_differ_only_on_lookalikes Whatwg.api
           "https://evilamazonaws.com/x"); [discriminate |].
  vm_compute. discriminate.
Defined.

(** ** The rewriters: what the output mapping holds *)

Section RewriterFacts.
Import Rewriting Rewritten.
Context {U : UrlApi}.
Implicit Types (h : heap) (l : loc).

(** The signed-URL mapping of the result, with or without a mapping in the
    input. *)
Lemma rewriteWith_mapping target proxyPath h recordMap pageId :
  Store.closed h →
  let out := rewriteWith target proxyPath h recordMap pageId in
  mapping out.1 out.2 = rewrittenMap target proxyPath h recordMap pageId.
Proof.
  intros Hc. cbv zeta. unfold mapping.
  destruct (Js.truthy (Js.get h recordMap "signed_urls")) eqn:Ht.
  - by apply rewriteWith_signed_urls.
  - rewrite rewriteWith_falsy by done. cbn [fst snd].
    unfold rewrittenMap. apply map_eq. intros k. rewrite map_lookup_imap.
    destruct (Js.get h recordMap "signed_urls"); try done.
Qed.

Lemma mapping_lookup target proxyPath h recordMap pageId blockId :
  Store.closed h →
  let out := rewriteWith target proxyPath h recordMap pageId in
  mapping out.1 out.2 !! blockId
  = mapping h recordMap !! blockId
      ≫= rewrittenValue target proxyPath h recordMap pageId blockId.
Proof.
  intros Hc. cbv zeta. rewrite rewriteWith_mapping by done.
  unfold rewrittenMap. by rewrite map_lookup_imap.
Qed.


(** X5: every value of the output mapping is a string, and it is either
    the input's value for that block or the local proxy path of that
    block: the rewriters write nothing else into the mapping. *)
Theorem rewritten_mapping_values h recordMap pageId blockId :
  Store.closed h →
  let pdfOut := RewritePdf.rewriteNotionPdfUrls h recordMap pageId in
  let fileOut := NotionApi.rewriteNotionFileUrls h recordMap pageId in
  (∀ w, mapping pdfOut.1 pdfOut.2 !! blockId = Some w →
     ∃ url, mapping h recordMap !! blockId = Some (VString url)
            ∧ (w = VString url
               ∨ w = VString ("/assets-pdf/"
                               +:+ JsString.encodeURIComponent pageId
                               +:+ "/" +:+ JsString.encodeURIComponent blockId)))
  ∧ (∀ w, mapping fileOut.1 fileOut.2 !! blockId = Some w →
       ∃ url, mapping h recordMap !! blockId = Some (VString url)
              ∧ (w = VString url
                 ∨ w = VString ("/api/notion-file?blockId="
                                 +:+ JsString.encodeURIComponent blockId
                                 +:+ "&pageId="
                                 +:+ JsString.encodeURIComponent pageId))).
Proof.
  intros Hc. cbv zeta.
  rewrite rewriteNotionPdfUrls_rewriteWith, rewriteNotionFileUrls_rewriteWith.
  rewrite !mapping_lookup by done.
  destruct (mapping h recordMap !! blockId) as [v|]; simpl; [| by split].
  unfold rewrittenValue.
  split; intros w Hw; destruct v as [| | | |url|]; try done;
    exists url; (split; [done |]);
    destruct (_ && _); injection Hw as <-; auto.
Qed.


(** The record map of the result: a new object, holding a new mapping
    object and, under every other key, what the input held. *)
Lemma rewriteWith_fields target proxyPath h recordMap pageId :
  Js.truthy (Js.get h recordMap "signed_urls") = true →
  let out := rewriteWith target proxyPath h recordMap pageId in
  (∃ l, out.2 = VObject l ∧ l ∉ dom h)
  ∧ (∃ l, Js.get out.1 out.2 "signed_urls" = VObject l ∧ l ∉ dom h)
  ∧ (∀ k, k ≠ "signed_urls" → Js.get out.1 out.2 k = Js.get h recordMap k).
Proof.
  intros Ht. cbv zeta.
  destruct (truthy_get_object _ _ _ Ht) as (l0 & -> & Hl0).
  unfold rewriteWith. rewrite Ht. cbn [negb fst snd Js.alloc].
  set (rewritten := fresh (dom h)).
  set (h2 := foldl _ _ _).
  assert (Hrew : rewritten ∉ dom h) by apply is_fresh.
  assert (Hkept : ∀ l, l ∈ dom h → h2 !! l = h !! l).
  { intros l Hl. unfold h2. rewrite loop_other by (by intros ->).
    rewrite lookup_insert_ne; [done | by intros ->]. }
  assert (Hsub : ∀ l, l ∈ dom h → l ∈ dom h2).
  { intros l Hl. apply elem_of_dom. rewrite Hkept by done.
    by apply elem_of_dom. }
  assert (Hres : fresh (dom h2) ∉ dom h).
  { intros Hin. by apply (is_fresh (dom h2)), Hsub. }
  split; [by exists (fresh (dom h2)) |].
  assert (Hprops : ∀ k,
            Js.get (<[fresh (dom h2) :=
                        <["signed_urls" := VObject rewritten]>
                          (Js.props h2 (VObject l0))]> h2)
              (VObject (fresh (dom h2))) k
            = default VUndefined
                ((<["signed_urls" := VObject rewritten]>
                    (Js.props h (VObject l0))) !! k)).
  { intros k. unfold Js.get. cbn [Js.props]. rewrite lookup_insert_eq.
    cbn [default]. by rewrite Hkept. }
  split.
  - exists rewritten. split; [| done].
    rewrite Hprops. by rewrite lookup_insert_eq.
  - intros k Hk. rewrite Hprops. by rewrite lookup_insert_ne.
Qed.

(** X7: when the input has a signed-URL mapping, a rewriter returns a new
    record-map object holding a new mapping object (neither is an object
    of the input store), and under every key but [signed_urls] the value
    the input record map holds: the blocks and all other fields are
    shared, not copied. *)
Theorem rewriters_copy_shallowly h recordMap pageId :
  Js.truthy (Js.get h recordMap "signed_urls") = true →
  let pdfOut := RewritePdf.rewriteNotionPdfUrls h recordMap pageId in
  let fileOut := NotionApi.rewriteNotionFileUrls h recordMap pageId in
  ((∃ l, pdfOut.2 = VObject l ∧ l ∉ dom h)
   ∧ (∃ l, Js.get pdfOut.1 pdfOut.2 "signed_urls" = VObject l ∧ l ∉ dom h)
   ∧ (∀ k, k ≠ "signed_urls" →
        Js.get pdfOut.1 pdfOut.2 k = Js.get h recordMap k))
  ∧ ((∃ l, fileOut.2 = VObject l ∧ l ∉ dom h)
     ∧ (∃ l, Js.get fileOut.1 fileOut.2 "signed_urls" = VObject l ∧ l ∉ dom h)
     ∧ (∀ k, k ≠ "signed_urls" →
          Js.get fileOut.1 fileOut.2 k = Js.get h recordMap k)).
Proof.
  intros Ht. cbv zeta.
  rewrite rewriteNotionPdfUrls_rewriteWith, rewriteNotionFileUrls_rewriteWith.
  split; by apply rewriteWith_fields.
Qed.

(** X8: once rewritten, no block of a target type is left with a URL the
    classifier accepts (for a parser that rejects a string starting with
    [/], as the platform's does): every expiring link of a file block is
    gone from the mapping. *)
Theorem no_hosted_url_left h recordMap pageId blockId url :
  (∀ s, URL_hostname (String "/" s) = None) →
  Store.closed h →
  let pdfOut := RewritePdf.rewriteNotionPdfUrls h recordMap pageId in
  let fileOut := NotionApi.rewriteNotionFileUrls h recordMap pageId in
  (blockTypeOf h recordMap blockId = VString "pdf" →
   mapping pdfOut.1 pdfOut.2 !! blockId = Some (VString url) →
   RewritePdf.isNotionHostedUrl url = false)
  ∧ (NotionApi.FILE_BLOCK_TYPES_has (blockTypeOf h recordMap blockId) = true →
     mapping fileOut.1 fileOut.2 !! blockId = Some (VString url) →
     NotionApi.isNotionHostedUrl url = false).
Proof.
  intros Hrel Hc. cbv zeta.
  rewrite rewriteNotionPdfUrls_rewriteWith, rewriteNotionFileUrls_rewriteWith.
  rewrite !mapping_lookup by done.
  destruct (mapping h recordMap !! blockId) as [[| | | |signedUrl|]|];
    simpl; try (split; intros; discriminate).
  unfold pdfTarget, fileTarget, Js.strictEquals. split.
  - intros ->. rewrite bool_decide_eq_true_2 by done. simpl.
    destruct (RewritePdf.isNotionHostedUrl signedUrl) eqn:Hh;
      intros [= <-]; [by apply local_path_not_hosted | done].
  - intros Hhas.
    assert (Htruthy : Js.truthy (blockTypeOf h recordMap blockId) = true).
    { destruct (blockTypeOf h recordMap blockId) as [| | | |t|]; try done.
      simpl in *. destruct (String.eqb_spec t EmptyString) as [->|]; [| done].
      exfalso. revert Hhas. by vm_compute. }
    rewrite Htruthy, Hhas. simpl.
    destruct (RewritePdf.isNotionHostedUrl signedUrl) eqn:Hh;
      intros [= <-]; [by apply local_path_not_hosted | done].
Qed.

End RewriterFacts.


Lemma rewritten_mapping_values_witness :
  ∃ url,
    Rewritten.mapping Example.store Example.recordMap !! "b2"
    = Some (VString url)
    ∧ (VString "https://s3.amazonaws.com/y" = VString url
       ∨ VString "https://s3.amazonaws.com/y"
         = VString ("/assets-pdf/" +:+ JsString.encodeURIComponent "page 1"
                      +:+ "/" +:+ JsString.encodeURIComponent "b2")).
Proof.
  apply (proj1 (@rewritten_mapping_values Whatwg.api
                  Example.store Example.recordMap "page 1" "b2"
                  example_store_closed)).
  vm_compute. reflexivity.
Defined.


Lemma rewriters_copy_shallowly_witness :
  let pdfOut :=
    @RewritePdf.rewriteNotionPdfUrls Whatwg.api
      Example.store Example.recordMap "page 1" in
  Js.get pdfOut.1 pdfOut.2 "block" = VObject 2.
Proof.
  cbv zeta.
  destruct (@rewriters_copy_shallowly Whatwg.api
              Example.store Example.recordMap "page 1" eq_refl)
    as [(_ & _ & Hfields) _].
  rewrite Hfields by discriminate. reflexivity.
Defined.

Lemma no_hosted_url_left_witness :
  @RewritePdf.isNotionHostedUrl Whatwg.api "/assets-pdf/page%201/b1" = false.
Proof.
  apply (proj1 (@no_hosted_url_left Whatwg.api
                  Example.store Example.recordMap "page 1" "b1"
                  "/assets-pdf/page%201/b1"
                  whatwg_relative_rejected example_store_closed));
    vm_compute; reflexivity.
Defined.

(** ** The local paths name their block *)

Section PathFacts.

Lemma byte_round_trip (c : ascii) :
  ascii_of_N
    (16 * Uri.hexValue (JsString.hexDigit (N_of_ascii c / 16))
     + Uri.hexValue (JsString.hexDigit (N_of_ascii c mod 16)))
  = c.
Proof.
  destruct c as [b0 b1 b2 b3 b4 b5 b6 b7].
  destruct b0, b1, b2, b3, b4, b5, b6, b7; reflexivity.
Qed.

Lemma hex_digits_unreserved (c : ascii) :
  JsString.uriUnreserved (JsString.hexDigit (N_of_ascii c / 16)) = true
  ∧ JsString.uriUnreserved (JsString.hexDigit (N_of_ascii c mod 16)) = true.
Proof.
  destruct c as [b0 b1 b2 b3 b4 b5 b6 b7].
  destruct b0, b1, b2, b3, b4, b5, b6, b7; split; reflexivity.
Qed.

Lemma encode_cons (c : ascii) (rest : string) :
  JsString.encodeURIComponent (String c rest)
  = if JsString.uriUnreserved c
    then String c (JsString.encodeURIComponent rest)
    else String "%"
           (String (JsString.hexDigit (N_of_ascii c / 16))
              (String (JsString.hexDigit (N_of_ascii c mod 16))
                 (JsString.encodeURIComponent rest))).
Proof. cbn [JsString.encodeURIComponent]. by destruct (JsString.uriUnreserved c). Qed.

(** What [encodeURIComponent] writes can be read back. *)
Lemma decode_encode (s : string) :
  Uri.decode (JsString.encodeURIComponent s) = s.
Proof.
  induction s as [|c rest IH]; [done |].
  rewrite encode_cons.
  destruct (JsString.uriUnreserved c) eqn:Hc.
  - cbn [Uri.decode].
    destruct (Ascii.eqb_spec c "%") as [-> | _]; [done |].
    by rewrite IH.
  - cbn [Uri.decode Ascii.eqb Bool.eqb andb]. cbv iota.
    by rewrite byte_round_trip, IH.
Qed.

Lemma encode_inj (s t : string) :
  JsString.encodeURIComponent s = JsString.encodeURIComponent t → s = t.
Proof.
  intros Heq. rewrite <- (decode_encode s), <- (decode_encode t).
  by rewrite Heq.
Qed.

Lemma contains_encode (c : ascii) (s : string) :
  Uri.contains c (JsString.encodeURIComponent s) = true →
  JsString.uriUnreserved c = true ∨ c = "%"%char.
Proof.
  induction s as [|x rest IH]; [done |].
  rewrite encode_cons.
  destruct (hex_digits_unreserved x) as [Hhi Hlo].
  destruct (JsString.uriUnreserved x) eqn:Hx; cbn [Uri.contains];
    rewrite ?orb_true_iff; intros Hin.
  - destruct Hin as [->%Ascii.eqb_eq | Hin]; auto.
  - destruct Hin as [->%Ascii.eqb_eq | [->%Ascii.eqb_eq
                       | [->%Ascii.eqb_eq | Hin]]]; auto.
Qed.

(** A string is cut at a separator in one way only, when the separator
    does not occur before the cut. *)
Lemma cut_unique (c : ascii) (a a' b b' : string) :
  Uri.contains c a = false → Uri.contains c a' = false →
  a +:+ String c b = a' +:+ String c b' → a = a' ∧ b = b'.
Proof.
  revert a'. induction a as [|x a IH]; intros [|y a'] Ha Ha' Heq.
  - by injection Heq as ->.
  - injection Heq as -> _. cbn in Ha'. by rewrite Ascii.eqb_refl in Ha'.
  - injection Heq as -> _. cbn in Ha. by rewrite Ascii.eqb_refl in Ha.
  - rewrite !append_cons in Heq. injection Heq as -> Heq.
    cbn in Ha, Ha'. apply orb_false_iff in Ha as [_ Ha], Ha' as [_ Ha'].
    destruct (IH a' Ha Ha' Heq) as [-> ->]. done.
Qed.

Lemma encode_has_no (c : ascii) (s : string) :
  JsString.uriUnreserved c = false → c ≠ "%"%char →
  Uri.contains c (JsString.encodeURIComponent s) = false.
Proof.
  intros Hc Hp.
  destruct (Uri.contains c (JsString.encodeURIComponent s)) eqn:Hin; [| done].
  destruct (contains_encode _ _ Hin) as [Hu | ->]; [congruence | done].
Qed.

Lemma pdfPath_inj pageId blockId pageId' blockId' :
  Rewriting.pdfPath pageId blockId = Rewriting.pdfPath pageId' blockId' →
  pageId = pageId' ∧ blockId = blockId'.
Proof.
  unfold Rewriting.pdfPath. intros Heq%(inj (String.append _)).
  apply (cut_unique "/") in Heq as [Hp%encode_inj Hb%encode_inj];
    [done | by apply encode_has_no..].
Qed.

Lemma filePath_inj pageId blockId pageId' blockId' :
  Rewriting.filePath pageId blockId = Rewriting.filePath pageId' blockId' →
  pageId = pageId' ∧ blockId = blockId'.
Proof.
  unfold Rewriting.filePath. intros Heq%(inj (String.append _)).
  apply (cut_unique "&") in Heq as [Hb%encode_inj Hp];
    [| by apply encode_has_no..].
  apply (inj (String.append "pageId=")), encode_inj in Hp. done.
Qed.

End PathFacts.

Section PathClaims.
Import Rewriting Rewritten.
Context {U : UrlApi}.

Lemma replaced_lookup target proxyPath h recordMap pageId blockId :
  Store.closed h →
  replaced target h recordMap blockId →
  let out := rewriteWith target proxyPath h recordMap pageId in
  mapping out.1 out.2 !! blockId = Some (VString (proxyPath pageId blockId)).
Proof.
  intros Hc (url & Hin & Htarget & Hhosted). cbv zeta.
  rewrite mapping_lookup by done. rewrite Hin. simpl.
  by rewrite Htarget, Hhosted.
Qed.

(** X9: the local path written for a block names it: if the entry the
    rewriter writes for block [blockId] of page [pageId] equals the entry
    it writes for block [blockId'] of page [pageId'], in the same or in
    another record map, then the pages are the same and the blocks are
    the same.  (Percent-encoding keeps [/] and [&] out of the
    identifiers.) *)
Theorem proxy_path_names_its_block
    h recordMap pageId blockId h' recordMap' pageId' blockId' :
  Store.closed h → Store.closed h' →
  let pdfOut := RewritePdf.rewriteNotionPdfUrls h recordMap pageId in
  let pdfOut' := RewritePdf.rewriteNotionPdfUrls h' recordMap' pageId' in
  let fileOut := NotionApi.rewriteNotionFileUrls h recordMap pageId in
  let fileOut' := NotionApi.rewriteNotionFileUrls h' recordMap' pageId' in
  (replaced pdfTarget h recordMap blockId →
   replaced pdfTarget h' recordMap' blockId' →
   mapping pdfOut.1 pdfOut.2 !! blockId
   = mapping pdfOut'.1 pdfOut'.2 !! blockId' →
   pageId = pageId' ∧ blockId = blockId')
  ∧ (replaced fileTarget h recordMap blockId →
     replaced fileTarget h' recordMap' blockId' →
     mapping fileOut.1 fileOut.2 !! blockId
     = mapping fileOut'.1 fileOut'.2 !! blockId' →
     pageId = pageId' ∧ blockId = blockId').
Proof.
  intros Hc Hc'. cbv zeta.
  rewrite !rewriteNotionPdfUrls_rewriteWith.
  rewrite !rewriteNotionFileUrls_rewriteWith.
  split; intros Hr Hr'.
  - rewrite (replaced_lookup _ _ _ _ _ _ Hc Hr).
    rewrite (replaced_lookup _ _ _ _ _ _ Hc' Hr').
    intros Heq. apply pdfPath_inj. congruence.
  - rewrite (replaced_lookup _ _ _ _ _ _ Hc Hr).
    rewrite (replaced_lookup _ _ _ _ _ _ Hc' Hr').
    intros Heq. apply filePath_inj. congruence.
Qed.

End PathClaims.

Lemma example_pdf_replaced :
  @Rewritten.replaced Whatwg.api Rewriting.pdfTarget
    Example.store Example.recordMap "b1".
Proof. exists "https://s3.amazonaws.com/x". by vm_compute. Defined.

Lemma proxy_path_names_its_block_witness : "page 1" = "page 1" ∧ "b1" = "b1".
Proof.
  apply (proj1 (@proxy_path_names_its_block Whatwg.api
                  Example.store Example.recordMap "page 1" "b1"
                  Example.store Example.recordMap "page 1" "b1"
                  example_store_closed example_store_closed));
    [exact example_pdf_replaced | exact example_pdf_replaced | reflexivity].
Defined.

(** ** Answering once *)

Section AnswerFacts.
Import Http IoLogic Answers.
Context {N : NotionClient} {F : FetchApi}.

Lemma quiet_modify f : (∀ w, sent (f w) = sent w) → quiet (modify f).
Proof. intros Hf w. apply Hf. Qed.

Lemma quiet_getPage pageId opts : quiet (getPage pageId opts).
Proof.
  intros w. destruct (getPageResult pageId opts) as [r|] eqn:Hr.
  - by rewrite (getPage_answered _ _ _ _ Hr).
  - by rewrite (getPage_rejected _ _ _ Hr).
Qed.

Lemma quiet_fetch url meth hdrs : quiet (fetch url meth hdrs).
Proof.
  intros w. destruct (fetchResult url meth hdrs) as [r|] eqn:Hr.
  - by rewrite (fetch_answered _ _ _ _ _ Hr).
  - by rewrite (fetch_rejected _ _ _ _ Hr).
Qed.

Lemma quiet_bind {A B} (m : io A) (k : A → io B) :
  quiet m → (∀ a, quiet (k a)) → quiet (m ≫= k).
Proof.
  intros Hm Hk w. specialize (Hm w).
  destruct (m w) as [[a|e] w'] eqn:Hmw; cbn [snd] in Hm.
  - rewrite (bind_returned _ _ _ _ _ Hmw). by rewrite Hk.
  - by rewrite (bind_thrown _ _ _ _ _ Hmw).
Qed.

Lemma quiet_tryCatch {A} (m : io A) (handler : string → io A) :
  quiet m → (∀ e, quiet (handler e)) → quiet (tryCatch m handler).
Proof.
  intros Hm Hh w. specialize (Hm w).
  destruct (m w) as [[a|e] w'] eqn:Hmw; cbn [snd] in Hm.
  - by rewrite (tryCatch_returned _ _ _ _ _ Hmw).
  - rewrite (tryCatch_thrown _ _ _ _ _ Hmw). by rewrite Hh.
Qed.

Section Answers.
Context (ok : world → payload → Prop).

Lemma answers_throw {A} e : answers ok (@throw A e).
Proof. by intros w Hw. Qed.

Lemma answers_finish (f : world → world) (p : payload) :
  (∀ w, sent (f w) = sent w) →
  (∀ w, ok (finished p (f w)) p) →
  answers ok (modify (λ w, finished p (f w))).
Proof.
  intros Hf Hok w Hw. exists p. split; [| apply Hok].
  cbn. by rewrite Hf, Hw.
Qed.

Lemma answers_bind {A B} (m : io A) (k : A → io B) :
  quiet m → (∀ a, answers ok (k a)) → answers ok (m ≫= k).
Proof.
  intros Hm Hk w Hw. specialize (Hm w). rewrite Hw in Hm.
  destruct (m w) as [[a|e] w'] eqn:Hmw; cbn [snd] in Hm.
  - rewrite (bind_returned _ _ _ _ _ Hmw). by apply Hk.
  - by rewrite (bind_thrown _ _ _ _ _ Hmw).
Qed.

Lemma answers_tryCatch {A} (m : io A) (handler : string → io A) :
  answers ok m → (∀ e, answers ok (handler e)) →
  answers ok (tryCatch m handler).
Proof.
  intros Hm Hh w Hw. specialize (Hm w Hw).
  destruct (m w) as [[a|e] w'] eqn:Hmw.
  - by rewrite (tryCatch_returned _ _ _ _ _ Hmw).
  - rewrite (tryCatch_thrown _ _ _ _ _ Hmw). by apply Hh.
Qed.

(** A computation that answers and always returns has answered. *)
Lemma answers_total (m : io unit) :
  answers ok m → total m →
  ∀ w, sent w = [] →
    (m w).1 = Returned () ∧ ∃ p, sent (m w).2 = [p] ∧ ok (m w).2 p.
Proof.
  intros Ha Ht w Hw. specialize (Ha w Hw). destruct (Ht w) as [[] Hret].
  destruct (m w) as [[[]|e] w']; [by split | done].
Qed.
End Answers.

End AnswerFacts.

(** ** The redirect handler, whatever the request *)

Section RedirectAlways.
Import Http IoLogic Answers.
Context {U : UrlApi} {N : NotionClient}.

Lemma redirectAnswer_json code error :
  code ∈ [400; 404; 405; 502]%Z →
  answers redirectAnswer (json code error).
Proof.
  intros Hcode. apply (answers_finish _ (withStatus code)); [done |].
  intros w. right. split; [exact Hcode | by exists error].
Qed.

Lemma redirectAnswer_redirect url :
  answers redirectAnswer (redirect 302 url).
Proof.
  destruct url as [| | | |u|]; try apply answers_throw.
  apply (answers_finish _ (λ w, withHeader "Location" u (withStatus 302 w)));
    [done |].
  intros w. left. split; [done |]. exists u. split; [done |].
  cbn. by rewrite lookup_insert_eq.
Qed.

Lemma redirectAnswer_redirectToRaw rawUrl :
  answers redirectAnswer (NotionFile.redirectToRaw rawUrl).
Proof.
  unfold NotionFile.redirectToRaw.
  destruct (negb _); [apply redirectAnswer_json; set_solver |].
  destruct (negb _); [apply redirectAnswer_json; set_solver |].
  apply redirectAnswer_redirect.
Qed.

Lemma notionFile_answers req :
  answers redirectAnswer (NotionFile.notionFileHandler req).
Proof.
  unfold NotionFile.notionFileHandler.
  destruct (negb _); [apply redirectAnswer_json; set_solver |].
  destruct (requiredString _) as [blockId|];
    [| apply redirectAnswer_json; set_solver].
  destruct (requiredString _) as [pageId|];
    [| apply redirectAnswer_json; set_solver].
  apply answers_tryCatch.
  - apply answers_bind; [apply quiet_getPage |].
    intros [h recordMap]. cbv beta iota zeta.
    destruct (Js.truthy _); [| apply redirectAnswer_redirectToRaw].
    destruct (negb _); [apply redirectAnswer_json; set_solver |].
    apply answers_bind; [by apply quiet_modify |].
    intros _. apply redirectAnswer_redirect.
  - intros err. apply answers_bind; [by apply quiet_modify |].
    intros _. apply answers_tryCatch.
    + apply answers_bind; [apply quiet_getPage |].
      intros [h recordMap]. apply redirectAnswer_redirectToRaw.
    + intros fallbackErr. apply answers_bind; [by apply quiet_modify |].
      intros _. apply redirectAnswer_json; set_solver.
Qed.

(** X10: whatever the request and whatever the upstream does, the redirect
    handler returns without throwing and has sent exactly one response:
    either a 302 whose [Location] is the redirect target, or an error
    message with status 400, 404, 405 or 502. *)
Theorem notionFile_answers_once (req : request) :
  let out := NotionFile.notionFileHandler req initial in
  out.1 = Returned ()
  ∧ ∃ p, sent out.2 = [p] ∧ redirectAnswer out.2 p.
Proof.
  cbv zeta. apply answers_total; [apply notionFile_answers | | done].
  intros w. exists (). apply notionFile_never_throws.
Qed.

Lemma signedAttempt_answered pageId blockId h recordMap w :
  getPageResult pageId Spec.signing = Some (h, recordMap) →
  NotionFile.signedAttempt pageId blockId w
  = (let freshUrl := Js.get h (Js.get h recordMap "signed_urls") blockId in
     if Js.truthy freshUrl
     then
       if negb (NotionFile.isAllowedHost (Js.ToString freshUrl))
       then json 400 "Unexpected redirect target"
       else
         setHeader "Cache-Control"
           "public, s-maxage=3300, stale-while-revalidate=86400";;
         redirect 302 freshUrl
     else NotionFile.redirectToRaw (NotionFile.rawSource h recordMap blockId))
      (addCall (GetPage pageId Spec.signing) w).
Proof.
  intros Hs. unfold NotionFile.signedAttempt. fold Spec.signing.
  by rewrite (bind_returned _ _ _ _ _ (getPage_answered _ _ _ _ Hs)).
Qed.

(** X11: when the signed fetch gives a signed URL for the block, on an
    allowed host, the redirect handler answers 302 to it, asks caches to
    keep the answer for 55 minutes, and has asked for the page once. *)
Theorem notionFile_signed_redirect (req : request) blockId pageId
    h recordMap url :
  Spec.requestFor "GET" blockId pageId req →
  getPageResult pageId Spec.signing = Some (h, recordMap) →
  Js.get h (Js.get h recordMap "signed_urls") blockId = VString url →
  url ≠ EmptyString →
  NotionFile.isAllowedHost url = true →
  let out := NotionFile.notionFileHandler req initial in
  statusCode out.2 = 302%Z
  ∧ sent out.2 = [Redirected url]
  ∧ resHeaders out.2 !! "Location" = Some url
  ∧ resHeaders out.2 !! "Cache-Control"
    = Some "public, s-maxage=3300, stale-while-revalidate=86400"
  ∧ calls out.2 = [GetPage pageId Spec.signing].
Proof.
  intros Hreq Hs Hfresh Hne%String.eqb_neq Hallowed. cbv zeta.
  rewrite (notionFileHandler_valid _ _ _ Hreq).
  erewrite tryCatch_returned;
    [| rewrite (signedAttempt_answered _ _ _ _ _ Hs); cbv zeta;
       rewrite Hfresh; cbn [Js.truthy Js.ToString];
       rewrite Hne, Hallowed; cbn [negb];
       unfold setHeader; rewrite bind_modify; reflexivity].
  done.
Qed.


Lemma signedAttempt_calls pageId blockId w :
  calls (NotionFile.signedAttempt pageId blockId w).2
  = (calls w ++ [GetPage pageId Spec.signing])%list.
Proof.
  destruct (getPageResult pageId Spec.signing) as [[h recordMap]|] eqn:Hs.
  - rewrite (signedAttempt_answered _ _ _ _ _ Hs). cbv zeta.
    destruct (Js.truthy _); [| by rewrite silent_redirectToRaw].
    destruct (negb _); [done |].
    unfold setHeader. rewrite bind_modify. by rewrite silent_redirect.
  - unfold NotionFile.signedAttempt. fold Spec.signing.
    by rewrite (bind_thrown _ _ _ _ _ (getPage_rejected _ _ _ Hs)).
Qed.

Lemma requiredString_Some (p : option param) (s : string) :
  requiredString p = Some s ↔ p = Some (PString s) ∧ s ≠ EmptyString.
Proof.
  destruct p as [[s'|ss]|]; simpl; try (split; [done | by intros [? ?]]).
  destruct (String.eqb_spec s' EmptyString) as [->|Hne].
  - split; [done | by intros [[= ->] ?]].
  - split; [by intros [= ->] | by intros [[= ->] ?]].
Qed.

(** X13: the redirect handler asks the upstream for nothing unless the
    request is a GET with a non-empty [blockId] and a non-empty [pageId]
    (an empty parameter is answered like a missing one); for such a
    request it asks for the page of the request with signing enabled and
    then, at most once more, for the same page with signing disabled. *)
Theorem notionFile_upstream_calls (req : request) :
  let out := NotionFile.notionFileHandler req initial in
  ((¬ ∃ blockId pageId, Spec.requestFor "GET" blockId pageId req) →
   calls out.2 = [] ∧ statusCode out.2 ∈ [400; 405]%Z)
  ∧ (∀ blockId pageId,
       Spec.requestFor "GET" blockId pageId req →
       calls out.2 = [GetPage pageId Spec.signing]
       ∨ calls out.2
         = [GetPage pageId Spec.signing; GetPage pageId Spec.notSigning]).
Proof.
  cbv zeta. split.
  - intros Hinvalid. unfold NotionFile.notionFileHandler.
    destruct (bool_decide (method req = Some "GET")) eqn:Hm;
      [| split; [done | set_solver]].
    apply bool_decide_eq_true_1 in Hm. cbn [negb].
    destruct (requiredString (query req !! "blockId")) as [blockId|] eqn:Hb;
      [| split; [done | set_solver]].
    destruct (requiredString (query req !! "pageId")) as [pageId|] eqn:Hp;
      [| split; [done | set_solver]].
    apply requiredString_Some in Hb as [Hb ?], Hp as [Hp ?].
    exfalso. apply Hinvalid. by exists blockId, pageId.
  - intros blockId pageId Hreq.
    rewrite (notionFileHandler_valid _ _ _ Hreq).
    pose proof (signedAttempt_calls pageId blockId initial) as Hfirst.
    destruct (NotionFile.signedAttempt pageId blockId initial)
      as [[[]|e] w] eqn:Hrun; cbn [snd] in Hfirst.
    + left. by rewrite (tryCatch_returned _ _ _ _ _ Hrun).
    + right. rewrite (tryCatch_thrown _ _ _ _ _ Hrun).
      by rewrite fallback_calls, Hfirst.
Qed.

End RedirectAlways.

(** The [pdf] block of the example page, on a workspace that signs. *)
Lemma notionFile_signed_redirect_witness :
  let out :=
    @NotionFile.notionFileHandler Whatwg.api Example.publicNotion
      (Example.request "GET" Example.blockOfPage) Http.initial in
  Http.statusCode out.2 = 302%Z
  ∧ Http.sent out.2 = [Http.Redirected "https://s3.amazonaws.com/x"]
  ∧ Http.resHeaders out.2 !! "Location" = Some "https://s3.amazonaws.com/x"
  ∧ Http.resHeaders out.2 !! "Cache-Control"
    = Some "public, s-maxage=3300, stale-while-revalidate=86400"
  ∧ Http.calls out.2 = [Http.GetPage "page 1" Spec.signing].
Proof.
  apply (@notionFile_signed_redirect Whatwg.api Example.publicNotion
           (Example.request "GET" Example.blockOfPage) "b1" "page 1"
           Example.store Example.recordMap "https://s3.amazonaws.com/x"
           (example_request_for "GET"));
    [reflexivity | vm_compute; reflexivity | discriminate | reflexivity].
Defined.


Lemma notionFile_upstream_calls_witness :
  Http.calls
    (@NotionFile.notionFileHandler Whatwg.api Example.publicNotion
       (Example.request "GET" [("blockId", EmptyString); ("pageId", "page 1")])
       Http.initial).2
  = [].
Proof.
  apply (proj1 (@notionFile_upstream_calls Whatwg.api Example.publicNotion
                  (Example.request "GET"
                     [("blockId", EmptyString); ("pageId", "page 1")]))).
  intros (blockId & pageId & _ & Hb & _ & Hne & _).
  vm_compute in Hb. injection Hb as <-. by apply Hne.
Defined.

(** ** The streaming proxy, whatever the request *)

Section RelayFacts.
Import Http IoLogic Answers Relayed.
Context {U : UrlApi} {N : NotionClient} {F : FetchApi}.

Lemma forEach_modify {A} (xs : list A) (f : A → io unit)
    (g : A → world → world) :
  (∀ x w, f x w = (Returned (), g x w)) →
  ∀ w, AssetsPdf.forEach xs f w = (Returned (), foldl (λ w x, g x w) w xs).
Proof.
  intros Hf. induction xs as [|x xs IH]; intros w; [done |].
  cbn [AssetsPdf.forEach foldl].
  rewrite (bind_returned _ _ _ _ _ (Hf x w)). apply IH.
Qed.

Lemma passHeader_fields up header w :
  statusCode (passHeader up header w) = statusCode w
  ∧ sent (passHeader up header w) = sent w
  ∧ calls (passHeader up header w) = calls w.
Proof.
  unfold passHeader. destruct (responseHeaders up !! header) as [v|]; [| done].
  by destruct (String.eqb v EmptyString).
Qed.

Lemma passHeaders_fields up xs w :
  let w' := foldl (λ w x, passHeader up x w) w xs in
  statusCode w' = statusCode w ∧ sent w' = sent w ∧ calls w' = calls w.
Proof.
  cbv zeta. revert w. induction xs as [|x xs IH]; intros w; [done |].
  cbn [foldl]. destruct (IH (passHeader up x w)) as (-> & -> & ->).
  apply passHeader_fields.
Qed.

Lemma passHeaders_lookup up xs w name :
  resHeaders (foldl (λ w x, passHeader up x w) w xs) !! name
  = match
      (if bool_decide (name ∈ xs)
       then
         match responseHeaders up !! name with
         | Some value =>
             if String.eqb value EmptyString then None else Some value
         | None => None
         end
       else None)
    with
    | Some value => Some value
    | None => resHeaders w !! name
    end.
Proof.
  revert w. induction xs as [|x xs IH]; intros w; [done |].
  cbn [foldl]. rewrite IH. clear IH.
  destruct (decide (name = x)) as [-> | Hne].
  - rewrite (bool_decide_eq_true_2 (x ∈ x :: xs)) by constructor.
    unfold passHeader.
    destruct (responseHeaders up !! x) as [v|];
      [| by destruct (bool_decide _)].
    destruct (String.eqb v EmptyString); [by destruct (bool_decide _) |].
    destruct (bool_decide _); [done |]. cbn. by rewrite lookup_insert_eq.
  - assert (Hother : resHeaders (passHeader up x w) !! name
                     = resHeaders w !! name).
    { unfold passHeader. destruct (responseHeaders up !! x) as [v|]; [| done].
      destruct (String.eqb v EmptyString); [done |].
      cbn. by rewrite lookup_insert_ne. }
    rewrite Hother.
    destruct (decide (name ∈ xs)) as [Hin | Hnin].
    + rewrite (bool_decide_eq_true_2 _ Hin).
      by rewrite (bool_decide_eq_true_2 (name ∈ x :: xs)) by (by constructor).
    + rewrite (bool_decide_eq_false_2 _ Hnin).
      by rewrite (bool_decide_eq_false_2 (name ∈ x :: xs))
        by (by apply not_elem_of_cons).
Qed.

(** The relay, run: the status, the headers, then the body. *)
Lemma relay_run req up w :
  let w1 :=
    foldl (λ w x, passHeader up x w) (withStatus (status up) w)
      AssetsPdf.PASSTHROUGH_HEADERS in
  let w2 :=
    match passed up "cache-control" with
    | Some _ => w1
    | None =>
        match resHeaders w !! "cache-control" with
        | Some v =>
            if String.eqb v EmptyString
            then withHeader "cache-control"
                   "public, s-maxage=300, stale-while-revalidate=3600" w1
            else w1
        | None =>
            withHeader "cache-control"
              "public, s-maxage=300, stale-while-revalidate=3600" w1
        end
    end in
  AssetsPdf.relay req up w
  = (Returned (),
     finished
       (if bool_decide (method req = Some "HEAD") then Ended
        else match body up with
             | None => Ended
             | Some bytes => Piped bytes
             end)
       w2).
Proof.
  cbv zeta. unfold AssetsPdf.relay, setStatus. rewrite bind_modify.
  erewrite bind_returned;
    [| apply (forEach_modify _ _ (passHeader up)); intros x w0;
       unfold passHeader; destruct (responseHeaders up !! x) as [v|];
       [by destruct (String.eqb v EmptyString) | done]].
  set (w1 := foldl _ _ _).
  erewrite bind_returned; [| reflexivity].
  assert (Hcc : resHeaders w1 !! "cache-control"
                = match passed up "cache-control" with
                  | Some value => Some value
                  | None => resHeaders w !! "cache-control"
                  end).
  { unfold w1. rewrite passHeaders_lookup. unfold passed.
    by rewrite (bool_decide_eq_true_2
                  ("cache-control" ∈ AssetsPdf.PASSTHROUGH_HEADERS))
      by (by do 2 constructor). }
  rewrite Hcc.
  assert (Hnonempty : ∀ v, passed up "cache-control" = Some v →
                           String.eqb v EmptyString = false).
  { unfold passed. intros v.
    destruct (bool_decide _); [| done].
    destruct (responseHeaders up !! "cache-control") as [v'|]; [| done].
    destruct (String.eqb v' EmptyString) eqn:Hv; [done |]. by intros [= <-]. }
  destruct (passed up "cache-control") as [v|].
  - rewrite (Hnonempty v eq_refl).
    destruct (bool_decide _); [done |]. by destruct (body up).
  - destruct (resHeaders w !! "cache-control") as [v|].
    + destruct (String.eqb v EmptyString);
        (destruct (bool_decide _); [done |]; by destruct (body up)).
    + destruct (bool_decide _); [done |]. by destruct (body up).
Qed.

Lemma relay_returns req up w :
  AssetsPdf.relay req up w = (Returned (), (AssetsPdf.relay req up w).2).
Proof. by rewrite relay_run. Qed.

Lemma relay_fields req up w :
  let out := AssetsPdf.relay req up w in
  out.1 = Returned ()
  ∧ statusCode out.2 = status up
  ∧ sent out.2
    = (sent w ++ [if bool_decide (method req = Some "HEAD") then Ended
                  else match body up with
                       | None => Ended
                       | Some bytes => Piped bytes
                       end])%list
  ∧ calls out.2 = calls w.
Proof.
  cbv zeta. rewrite relay_run. cbn [fst snd]. set (w1 := foldl _ _ _).
  destruct (passHeaders_fields up AssetsPdf.PASSTHROUGH_HEADERS
              (withStatus (status up) w)) as (Hstatus & Hs & Hc).
  fold w1 in Hstatus, Hs, Hc.
  assert (Hfields : ∀ w2,
            w2 = w1
            ∨ w2 = withHeader "cache-control"
                     "public, s-maxage=300, stale-while-revalidate=3600" w1 →
            statusCode w2 = status up ∧ sent w2 = sent w
            ∧ calls w2 = calls w).
  { intros w2 [-> | ->]; cbn [withHeader statusCode sent calls];
      by rewrite Hstatus, Hs, Hc. }
  match goal with
  | |- context [finished _ ?w2] =>
      destruct (Hfields w2) as (H1 & H2 & H3)
  end.
  { destruct (passed up "cache-control"); [by left |].
    destruct (resHeaders _ !! "cache-control") as [v|]; [| by right].
    destruct (String.eqb v EmptyString); [by right | by left]. }
  cbn [finished statusCode sent calls]. by rewrite H1, H2, H3.
Qed.

Lemma requiredString_None (p : option param) :
  requiredString p = None ↔ unusable p.
Proof.
  unfold unusable. destruct p as [[s|ss]|]; cbn [requiredString].
  - destruct (String.eqb_spec s EmptyString) as [->|Hne].
    + split; [by right; left | done].
    + split; [done |]. intros [? | [[= ->] | [ss ?]]]; done.
  - split; [| done]. intros _. right. right. by exists ss.
  - split; [by left | done].
Qed.

(** X14: the streaming proxy answers 405 to any method but GET and HEAD,
    and 400 to a GET or HEAD whose [blockId] or [pageId] is missing,
    repeated or empty, naming [blockId] when both are; in all these cases
    nothing is asked of the upstream. *)
Theorem assetsPdf_rejects_bad_requests (req : request) :
  let w := (AssetsPdf.assetsPdfHandler req initial).2 in
  (method req ≠ Some "GET" → method req ≠ Some "HEAD" →
     statusCode w = 405%Z ∧ sent w = [Json "Method not allowed"]
     ∧ calls w = [])
  ∧ (method req = Some "GET" ∨ method req = Some "HEAD" →
     unusable (query req !! "blockId") →
     statusCode w = 400%Z ∧ sent w = [Json "Missing blockId parameter"]
     ∧ calls w = [])
  ∧ (method req = Some "GET" ∨ method req = Some "HEAD" →
     ¬ unusable (query req !! "blockId") →
     unusable (query req !! "pageId") →
     statusCode w = 400%Z ∧ sent w = [Json "Missing pageId parameter"]
     ∧ calls w = []).
Proof.
  cbv zeta. unfold AssetsPdf.assetsPdfHandler.
  assert (Hvalid : method req = Some "GET" ∨ method req = Some "HEAD" →
            negb (bool_decide (method req = Some "GET"))
            && negb (bool_decide (method req = Some "HEAD")) = false).
  { intros [Hm | Hm]; rewrite (bool_decide_eq_true_2 _ Hm);
      [done | by rewrite andb_false_r]. }
  repeat apply conj.
  - intros Hget Hhead.
    by rewrite (bool_decide_eq_false_2 _ Hget), (bool_decide_eq_false_2 _ Hhead).
  - intros Hm Hb%requiredString_None. by rewrite (Hvalid Hm), Hb.
  - intros Hm Hb Hp%requiredString_None. rewrite (Hvalid Hm), Hp.
    destruct (requiredString (query req !! "blockId")) eqn:Hrb; [done |].
    by apply requiredString_None in Hrb.
Qed.

Lemma proxy_relayed req pageId blockId w url w1 upstreamRes :
  AssetsPdf.resolvePdfUrl pageId blockId w = (Returned url, w1) →
  AssetsPdf.isAllowedHost url = true →
  fetchResult url (method req) (AssetsPdf.forwardedHeaders req)
  = Some upstreamRes →
  AssetsPdf.proxy req pageId blockId w
  = AssetsPdf.relay req upstreamRes
      (addCall (Fetch url (method req) (AssetsPdf.forwardedHeaders req)) w1).
Proof.
  intros Hout Hallowed Hfetch. unfold AssetsPdf.proxy.
  rewrite (bind_returned _ _ _ _ _ Hout), Hallowed. cbn [negb].
  by rewrite (bind_returned _ _ _ _ _ (fetch_answered _ _ _ _ _ Hfetch)).
Qed.

(** X15: when the resolved URL is on an allowed host and the upstream
    answers, the streaming proxy has fetched that URL once, with the
    client's method and the forwarded headers, and answers with the
    upstream's status, whatever it is; to a HEAD without a body, to a GET
    with the upstream's body when there is one. *)
Theorem assetsPdf_relays_upstream (req : request) meth blockId pageId
    url w upstreamRes :
  meth = "GET" ∨ meth = "HEAD" →
  Spec.requestFor meth blockId pageId req →
  AssetsPdf.resolvePdfUrl pageId blockId initial = (Returned url, w) →
  AssetsPdf.isAllowedHost url = true →
  fetchResult url (Some meth) (AssetsPdf.forwardedHeaders req)
  = Some upstreamRes →
  let out := AssetsPdf.assetsPdfHandler req initial in
  out.1 = Returned ()
  ∧ statusCode out.2 = status upstreamRes
  ∧ sent out.2
    = [if String.eqb meth "HEAD" then Ended
       else match body upstreamRes with
            | None => Ended
            | Some bytes => Piped bytes
            end]
  ∧ calls out.2
    = (calls w ++ [Fetch url (Some meth) (AssetsPdf.forwardedHeaders req)])%list.
Proof.
  intros Hmeth Hreq Hout Hallowed Hfetch. cbv zeta.
  rewrite (assetsPdfHandler_valid _ _ _ _ Hmeth Hreq).
  destruct (resolvePdfUrl_quiet _ _ _ _ Hout) as [Hsent _].
  destruct Hreq as (Hm & _). rewrite <- Hm in Hfetch.
  erewrite tryCatch_returned;
    [| rewrite (proxy_relayed _ _ _ _ _ _ _ Hout Hallowed Hfetch);
       apply relay_returns].
  destruct (relay_fields req upstreamRes
              (addCall (Fetch url (method req)
                          (AssetsPdf.forwardedHeaders req)) w))
    as (_ & Hstatus & Hs & Hc).
  cbn [fst snd]. rewrite Hstatus, Hs, Hc.
  cbn [addCall sent calls]. rewrite Hsent, Hm.
  repeat apply conj; [done | done | | done].
  by destruct Hmeth as [-> | ->].
Qed.

(** X16: of the upstream's response headers the streaming proxy hands on
    those of its list that have a non-empty value, unchanged, and no
    other; it adds its own caching header exactly when the upstream gave
    none. *)
Theorem assetsPdf_response_headers (req : request) meth blockId pageId
    url w upstreamRes :
  meth = "GET" ∨ meth = "HEAD" →
  Spec.requestFor meth blockId pageId req →
  AssetsPdf.resolvePdfUrl pageId blockId initial = (Returned url, w) →
  AssetsPdf.isAllowedHost url = true →
  fetchResult url (Some meth) (AssetsPdf.forwardedHeaders req)
  = Some upstreamRes →
  let out := AssetsPdf.assetsPdfHandler req initial in
  ∀ name,
    resHeaders out.2 !! name
    = match passed upstreamRes name with
      | Some value => Some value
      | None =>
          if String.eqb name "cache-control"
          then Some "public, s-maxage=300, stale-while-revalidate=3600"
          else None
      end.
Proof.
  intros Hmeth Hreq Hout Hallowed Hfetch. cbv zeta. intros name.
  rewrite (assetsPdfHandler_valid _ _ _ _ Hmeth Hreq).
  assert (Hnone : resHeaders w = ∅).
  { pose proof (stable_resolvePdfUrl (λ w, resHeaders w = ∅)
                  (λ _ _ _ Hw, Hw) pageId blockId initial eq_refl) as Hs.
    by rewrite Hout in Hs. }
  destruct Hreq as (Hm & _). rewrite <- Hm in Hfetch.
  erewrite tryCatch_returned;
    [| rewrite (proxy_relayed _ _ _ _ _ _ _ Hout Hallowed Hfetch);
       apply relay_run].
  cbn [fst snd finished resHeaders addCall]. rewrite Hnone, lookup_empty.
  set (w1 := foldl _ _ _).
  assert (Hw1 : resHeaders w1 !! name = passed upstreamRes name).
  { unfold w1. rewrite passHeaders_lookup.
    cbn [withStatus addCall resHeaders]. rewrite Hnone, lookup_empty.
    unfold passed. by destruct (if bool_decide _ then _ else _). }
  destruct (String.eqb_spec name "cache-control") as [-> | Hne].
  - destruct (passed upstreamRes "cache-control") as [v|] eqn:Hcc;
      [done |].
    cbn [withHeader resHeaders]. by rewrite lookup_insert_eq.
  - destruct (passed upstreamRes "cache-control") as [v|].
    + rewrite Hw1. by destruct (passed upstreamRes name).
    + cbn [withHeader resHeaders]. rewrite lookup_insert_ne by done.
      rewrite Hw1. by destruct (passed upstreamRes name).
Qed.

(** X17: of the client's request headers the streaming proxy hands on
    [range], [if-none-match] and [if-modified-since], each when it has a
    single value, unchanged; and no other header. *)
Theorem forwardedHeaders_exact (req : request) (name : string) :
  AssetsPdf.forwardedHeaders req !! name
  = if bool_decide (name ∈ forwardable)
    then stringParam (headers req !! name)
    else None.
Proof.
  unfold AssetsPdf.forwardedHeaders, forwardable. cbv zeta.
  destruct (decide (name = "if-modified-since")) as [-> | H3].
  { rewrite bool_decide_eq_true_2 by (by do 3 constructor).
    destruct (stringParam (headers req !! "if-modified-since"));
      [by rewrite lookup_insert_eq |].
    destruct (stringParam (headers req !! "if-none-match"));
      destruct (stringParam (headers req !! "range"));
      by rewrite ?lookup_insert_ne by done. }
  destruct (decide (name = "if-none-match")) as [-> | H2].
  { rewrite bool_decide_eq_true_2 by (by do 2 constructor).
    destruct (stringParam (headers req !! "if-modified-since"));
      rewrite ?lookup_insert_ne by done;
      (destruct (stringParam (headers req !! "if-none-match"));
         [by rewrite lookup_insert_eq |]);
      destruct (stringParam (headers req !! "range"));
      by rewrite ?lookup_insert_ne by done. }
  destruct (decide (name = "range")) as [-> | H1].
  { rewrite bool_decide_eq_true_2 by constructor.
    destruct (stringParam (headers req !! "if-modified-since"));
      destruct (stringParam (headers req !! "if-none-match"));
      rewrite ?lookup_insert_ne by done;
      (destruct (stringParam (headers req !! "range"));
         [by rewrite lookup_insert_eq | done]). }
  rewrite bool_decide_eq_false_2.
  - destruct (stringParam (headers req !! "if-modified-since"));
      destruct (stringParam (headers req !! "if-none-match"));
      destruct (stringParam (headers req !! "range"));
      by rewrite ?lookup_insert_ne by done.
  - intros Hin. repeat (apply elem_of_cons in Hin as [? | Hin]; [done |]).
    by apply not_elem_of_nil in Hin.
Qed.

Lemma resolveSigned_returns pageId blockId w :
  ∃ r, AssetsPdf.resolveSigned pageId blockId w
       = (Returned r, addCall (GetPage pageId Spec.signing) w).
Proof.
  destruct (getPageResult pageId Spec.signing) as [[h recordMap]|] eqn:Hs.
  - eexists. by apply resolveSigned_answered.
  - exists None. by apply resolveSigned_rejected.
Qed.

Lemma resolvePdfUrl_calls pageId blockId w :
  let out := AssetsPdf.resolvePdfUrl pageId blockId w in
  calls out.2 = (calls w ++ [GetPage pageId Spec.signing])%list
  ∨ calls out.2
    = (calls w ++ [GetPage pageId Spec.signing;
                   GetPage pageId Spec.notSigning])%list.
Proof.
  cbv zeta. destruct (resolveSigned_returns pageId blockId w) as [[url|] Hr].
  - left. unfold AssetsPdf.resolvePdfUrl.
    by rewrite (bind_returned _ _ _ _ _ Hr).
  - right. rewrite (resolvePdfUrl_retry _ _ _ _ Hr).
    assert (Hcalls :
      calls (addCall (GetPage pageId Spec.notSigning)
               (addCall (GetPage pageId Spec.signing) w))
      = (calls w ++ [GetPage pageId Spec.signing;
                     GetPage pageId Spec.notSigning])%list)
      by (cbn [addCall calls]; by rewrite <- app_assoc).
    destruct (getPageResult pageId Spec.notSigning) as [[h fallbackMap]|];
      [| done].
    destruct (AssetsPdf.getRawSourceUrl h fallbackMap blockId) as [u|];
      [| done].
    by destruct (String.eqb u EmptyString).
Qed.

(** X18: the streaming proxy asks the upstream for nothing when it
    refuses the request; otherwise it asks for the page of the request
    once with signing enabled and at most once more with signing
    disabled, and then fetches at most one URL, on an allowed host, with
    the client's method and the forwarded headers. *)
Theorem assetsPdf_upstream_calls (req : request) :
  let out := AssetsPdf.assetsPdfHandler req initial in
  calls out.2 = []
  ∨ ∃ pageId pages fetches,
      query req !! "pageId" = Some (PString pageId)
      ∧ calls out.2 = (pages ++ fetches)%list
      ∧ (pages = [GetPage pageId Spec.signing]
         ∨ pages = [GetPage pageId Spec.signing;
                    GetPage pageId Spec.notSigning])
      ∧ (fetches = []
         ∨ ∃ url,
             fetches = [Fetch url (method req) (AssetsPdf.forwardedHeaders req)]
             ∧ AssetsPdf.isAllowedHost url = true).
Proof.
  cbv zeta. unfold AssetsPdf.assetsPdfHandler.
  destruct (negb _ && negb _); [by left |].
  destruct (requiredString (query req !! "blockId")) as [blockId|];
    [| by left].
  destruct (requiredString (query req !! "pageId")) as [pageId|] eqn:Hp;
    [| by left].
  apply requiredString_Some in Hp as [Hp _].
  right. exists pageId.
  pose proof (resolvePdfUrl_calls pageId blockId initial) as Hpages.
  cbv zeta in Hpages. cbn [initial calls app] in Hpages.
  destruct (AssetsPdf.resolvePdfUrl pageId blockId initial)
    as [[url|e] w] eqn:Hout; cbn [snd] in Hpages.
  - destruct (AssetsPdf.isAllowedHost url) eqn:Hallowed.
    + destruct (fetchResult url (method req) (AssetsPdf.forwardedHeaders req))
        as [upstreamRes|] eqn:Hfetch.
      * erewrite tryCatch_returned;
          [| rewrite (proxy_relayed _ _ _ _ _ _ _ Hout Hallowed Hfetch);
             apply relay_returns].
        destruct (relay_fields req upstreamRes
                    (addCall (Fetch url (method req)
                                (AssetsPdf.forwardedHeaders req)) w))
          as (_ & _ & _ & Hc).
        cbn [snd]. rewrite Hc. cbn [addCall calls].
        exists (calls w), [Fetch url (method req) (AssetsPdf.forwardedHeaders req)].
        repeat apply conj; [done | done | done |]. right. by exists url.
      * erewrite tryCatch_thrown;
          [| unfold AssetsPdf.proxy;
             rewrite (bind_returned _ _ _ _ _ Hout), Hallowed;
             exact (bind_thrown _ _ _ _ _ (fetch_rejected _ _ _ _ Hfetch))].
        exists (calls w), [Fetch url (method req) (AssetsPdf.forwardedHeaders req)].
        repeat apply conj; [done | done | done |]. right. by exists url.
    + erewrite tryCatch_returned;
        [| unfold AssetsPdf.proxy;
           rewrite (bind_returned _ _ _ _ _ Hout), Hallowed; reflexivity].
      exists (calls w), []. rewrite app_nil_r.
      repeat apply conj; [done | done | done | by left].
  - erewrite tryCatch_thrown;
      [| unfold AssetsPdf.proxy; exact (bind_thrown _ _ _ _ _ Hout)].
    exists (calls w), []. rewrite app_nil_r.
    repeat apply conj; [done | done | done | by left].
Qed.

Lemma quiet_resolvePdfUrl pageId blockId :
  quiet (AssetsPdf.resolvePdfUrl pageId blockId).
Proof.
  intros w.
  exact (stable_resolvePdfUrl (λ w', sent w' = sent w)
           (λ _ _ _ Hw, Hw) pageId blockId w eq_refl).
Qed.

Lemma proxyAnswer_json code error :
  code ∈ [400; 405; 502]%Z → answers proxyAnswer (json code error).
Proof.
  intros Hcode. apply (answers_finish _ (withStatus code)); [done |].
  intros w. right. right. split; [exact Hcode | by exists error].
Qed.

Lemma proxyAnswer_relay req upstreamRes :
  answers proxyAnswer (AssetsPdf.relay req upstreamRes).
Proof.
  intros w Hw. rewrite relay_returns.
  destruct (relay_fields req upstreamRes w) as (_ & _ & Hs & _).
  rewrite Hw in Hs. eexists. split; [exact Hs |].
  destruct (bool_decide _); [by left |].
  destruct (body upstreamRes) as [bytes|]; [| by left].
  right. left. by exists bytes.
Qed.

Lemma assetsPdf_answers req :
  answers proxyAnswer (AssetsPdf.assetsPdfHandler req).
Proof.
  unfold AssetsPdf.assetsPdfHandler.
  destruct (negb _ && negb _); [apply proxyAnswer_json; set_solver |].
  destruct (requiredString _) as [blockId|];
    [| apply proxyAnswer_json; set_solver].
  destruct (requiredString _) as [pageId|];
    [| apply proxyAnswer_json; set_solver].
  apply answers_tryCatch.
  - apply answers_bind; [apply quiet_resolvePdfUrl |].
    intros url. destruct (negb _); [apply proxyAnswer_json; set_solver |].
    apply answers_bind; [apply quiet_fetch |].
    intros upstreamRes. apply proxyAnswer_relay.
  - intros err. apply answers_bind; [by apply quiet_modify |].
    intros _. apply proxyAnswer_json; set_solver.
Qed.

(** X19: whatever the request and whatever the upstream does, the
    streaming proxy returns without throwing and has sent exactly one
    response: the relayed one, with or without a body, or an error message
    with status 400, 405 or 502. *)
Theorem assetsPdf_answers_once (req : request) :
  let out := AssetsPdf.assetsPdfHandler req initial in
  out.1 = Returned ()
  ∧ ∃ p, sent out.2 = [p] ∧ proxyAnswer out.2 p.
Proof.
  cbv zeta. apply answers_total; [apply assetsPdf_answers | | done].
  unfold AssetsPdf.assetsPdfHandler.
  destruct (negb _ && negb _); [apply total_modify |].
  destruct (requiredString _) as [blockId|]; [| apply total_modify].
  destruct (requiredString _) as [pageId|]; [| apply total_modify].
  apply total_tryCatch. intros err.
  apply total_bind; [apply total_modify |]. intros _. apply total_modify.
Qed.

(** X20: a signed URL that is the empty string is still the proxy's
    choice: it tries neither the raw source URL nor the unsigned fetch,
    and as the empty string is no URL the request is answered 400. *)
Theorem assetsPdf_empty_signed_url (req : request) meth blockId pageId
    h recordMap :
  URL_hostname EmptyString = None →
  meth = "GET" ∨ meth = "HEAD" →
  Spec.requestFor meth blockId pageId req →
  getPageResult pageId Spec.signing = Some (h, recordMap) →
  Js.get h (Js.get h recordMap "signed_urls") blockId = VString EmptyString →
  let out := AssetsPdf.assetsPdfHandler req initial in
  statusCode out.2 = 400%Z
  ∧ sent out.2 = [Json "Unexpected file host"]
  ∧ calls out.2 = [GetPage pageId Spec.signing].
Proof.
  intros Hparse Hmeth Hreq Hs Hfresh. cbv zeta.
  rewrite (assetsPdfHandler_valid _ _ _ _ Hmeth Hreq).
  assert (Hout :
    AssetsPdf.resolvePdfUrl pageId blockId initial
    = (Returned EmptyString, addCall (GetPage pageId Spec.signing) initial)).
  { unfold AssetsPdf.resolvePdfUrl.
    rewrite (bind_returned _ _ _ _ _ (resolveSigned_answered _ _ _ _ _ Hs)).
    by rewrite Hfresh. }
  erewrite tryCatch_returned;
    [| unfold AssetsPdf.proxy; rewrite (bind_returned _ _ _ _ _ Hout);
       unfold AssetsPdf.isAllowedHost; rewrite Hparse; reflexivity].
  done.
Qed.

End RelayFacts.

(** A POST, and a GET whose [blockId] is empty and [pageId] missing. *)
Lemma assetsPdf_rejects_bad_requests_witness :
  (let w :=
     (@AssetsPdf.assetsPdfHandler Whatwg.api Example.publicNotion
        Example.storage (Example.request "POST" Example.blockOfPage)
        Http.initial).2 in
   Http.statusCode w = 405%Z ∧ Http.calls w = [])
  ∧
  (let w :=
     (@AssetsPdf.assetsPdfHandler Whatwg.api Example.publicNotion
        Example.storage (Example.request "GET" [("blockId", EmptyString)])
        Http.initial).2 in
   Http.statusCode w = 400%Z
   ∧ Http.sent w = [Http.Json "Missing blockId parameter"]).
Proof.
  split.
  - destruct (proj1 (@assetsPdf_rejects_bad_requests Whatwg.api
                       Example.publicNotion Example.storage
                       (Example.request "POST" Example.blockOfPage)))
      as (Hstatus & _ & Hcalls); [discriminate | discriminate |].
    by split.
  - destruct (proj1 (proj2 (@assetsPdf_rejects_bad_requests Whatwg.api
                       Example.publicNotion Example.storage
                       (Example.request "GET" [("blockId", EmptyString)]))))
      as (Hstatus & Hsent & _);
      [left; reflexivity | right; left; reflexivity |].
    by split.
Defined.

(** The [pdf] block of the example page, from a storage that answers. *)
Lemma assetsPdf_relays_upstream_witness :
  let out :=
    @AssetsPdf.assetsPdfHandler Whatwg.api Example.publicNotion
      Example.storage (Example.request "GET" Example.blockOfPage)
      Http.initial in
  out.1 = Http.Returned ()
  ∧ Http.statusCode out.2 = 200%Z
  ∧ Http.sent out.2 = [Http.Piped "%PDF-1.7"]
  ∧ Http.calls out.2
    = [Http.GetPage "page 1" Spec.signing;
       Http.Fetch "https://s3.amazonaws.com/x" (Some "GET") ∅].
Proof.
  apply (@assetsPdf_relays_upstream Whatwg.api Example.publicNotion
           Example.storage (Example.request "GET" Example.blockOfPage)
           "GET" "b1" "page 1" "https://s3.amazonaws.com/x"
           (Http.addCall (Http.GetPage "page 1" Spec.signing) Http.initial)
           {| Http.status := 200;
              Http.responseHeaders := {[ "content-type" := "application/pdf" ]};
              Http.body := Some "%PDF-1.7" |}
           (or_introl eq_refl) (example_request_for "GET"));
    [vm_compute; reflexivity | reflexivity | reflexivity].
Defined.

Lemma assetsPdf_response_headers_witness :
  let out :=
    @AssetsPdf.assetsPdfHandler Whatwg.api Example.publicNotion
      Example.storage (Example.request "GET" Example.blockOfPage)
      Http.initial in
  Http.resHeaders out.2 !! "content-type" = Some "application/pdf"
  ∧ Http.resHeaders out.2 !! "cache-control"
    = Some "public, s-maxage=300, stale-while-revalidate=3600"
  ∧ Http.resHeaders out.2 !! "set-cookie" = None.
Proof.
  pose proof (@assetsPdf_response_headers Whatwg.api Example.publicNotion
           Example.storage (Example.request "GET" Example.blockOfPage)
           "GET" "b1" "page 1" "https://s3.amazonaws.com/x"
           (Http.addCall (Http.GetPage "page 1" Spec.signing) Http.initial)
           {| Http.status := 200;
              Http.responseHeaders := {[ "content-type" := "application/pdf" ]};
              Http.body := Some "%PDF-1.7" |}
           (or_introl eq_refl) (example_request_for "GET")) as Hheaders.
  cbv zeta in Hheaders.
  repeat apply conj; (rewrite Hheaders;
    [vm_compute; reflexivity | vm_compute; reflexivity | reflexivity
    | reflexivity]).
Defined.

(** A HEAD for a block whose signed URL is empty, although its raw source
    URL is there. *)
Lemma assetsPdf_empty_signed_url_witness :
  let out :=
    @AssetsPdf.assetsPdfHandler Whatwg.api Example.emptySigningNotion
      Example.storage (Example.request "HEAD" Example.blockOfPage)
      Http.initial in
  Http.statusCode out.2 = 400%Z
  ∧ Http.sent out.2 = [Http.Json "Unexpected file host"]
  ∧ Http.calls out.2 = [Http.GetPage "page 1" Spec.signing].
Proof.
  apply (@assetsPdf_empty_signed_url Whatwg.api Example.emptySigningNotion
           Example.storage (Example.request "HEAD" Example.blockOfPage)
           "HEAD" "b1" "page 1" Example.emptySignedStore Example.recordMap);
    [reflexivity | right; reflexivity | apply example_request_for
    | reflexivity | vm_compute; reflexivity].
Defined.

(** ** The two rewriters compared *)

Section RewritersCompared.
Import Rewriting Rewritten.
Context {U : UrlApi}.



End RewritersCompared.

